(** * Meeting notes summarizer: the response normaliser of [app.py]

    A shallow embedding of [extract_json_from_response], of the Python
    built-ins it calls ([str.strip], [str.split], [str.count], [re.search],
    [json.loads], [str], [dict], [print]) and of the [/api/analyze] handler,
    followed
    by the properties the specification states about them.

    Python strings are sequences of Unicode code points: a character is a
    code point in [N], a string a list of them. *)

From Stdlib Require Import String Ascii List NArith ZArith Bool Lia.
From Stdlib Require DecimalString.
Import ListNotations.

Set Implicit Arguments.
Set Warnings "-register-all".

(* ================================================================== *)
(** * Python strings *)
(* ================================================================== *)

Module Py.

Local Open Scope N_scope.

Abbreviation char := N (only parsing).
Abbreviation pystr := (list N) (only parsing).

(** A literal: the code points of an ASCII text. *)
Definition lit (s : string) : pystr :=
  List.map N_of_ascii (list_ascii_of_string s).

(** A literal in which every apostrophe stands for a double quote, so that
    JSON texts can be written down: [jlit "{'a': 1}"] is the text
    [{"a": 1}]. *)
Definition jlit (s : string) : pystr :=
  List.map (fun c => if c =? 39 then 34 else c) (lit s).

Definition str_eqb (a b : pystr) : bool :=
  if list_eq_dec N.eq_dec a b then true else false.

(** [str.isspace] on one code point (CPython's [_PyUnicode_IsWhitespace]). *)
Definition isspace (c : char) : bool :=
  ((9 <=? c) && (c <=? 13)) || ((28 <=? c) && (c <=? 32))
  || (c =? 133) || (c =? 160) || (c =? 5760)
  || ((8192 <=? c) && (c <=? 8202))
  || (c =? 8232) || (c =? 8233) || (c =? 8239) || (c =? 8287)
  || (c =? 12288).

Fixpoint lstrip (s : pystr) : pystr :=
  match s with
  | c :: t => if isspace c then lstrip t else s
  | [] => []
  end.

Definition rstrip (s : pystr) : pystr := rev (lstrip (rev s)).

(** [s.strip()] *)
Definition strip (s : pystr) : pystr := rstrip (lstrip s).

(** [bool(s)] *)
Definition nonempty (s : pystr) : bool :=
  match s with
  | [] => false
  | _ :: _ => true
  end.

(** [s.startswith(p)] *)
Fixpoint startswith (s p : pystr) {struct p} : bool :=
  match p, s with
  | [], _ => true
  | a :: p', b :: s' => (a =? b) && startswith s' p'
  | _ :: _, [] => false
  end.

(** [sub in s] *)
Fixpoint contains (sub s : pystr) : bool :=
  startswith s sub ||
  match s with
  | [] => false
  | _ :: t => contains sub t
  end.

(** [s.split(sep)] for a non-empty [sep]: the pieces between the leftmost
    non-overlapping occurrences of [sep].  [skip] counts the characters of
    an occurrence that are still to be passed over. *)
Fixpoint split_from (sep : pystr) (skip : nat) (s : pystr) : list pystr :=
  match s with
  | [] => [[]]
  | c :: t =>
      match skip with
      | S k => split_from sep k t
      | O =>
          if startswith s sep then [] :: split_from sep (length sep - 1) t
          else match split_from sep 0 t with
               | piece :: rest => (c :: piece) :: rest
               | [] => [[c]]
               end
      end
  end.

Definition split (s sep : pystr) : list pystr := split_from sep 0 s.

(** [s.count(sub)]: the number of non-overlapping occurrences. *)
Fixpoint count_from (sub : pystr) (skip : nat) (s : pystr) : nat :=
  match s with
  | [] => 0
  | _ :: t =>
      match skip with
      | S k => count_from sub k t
      | O =>
          if startswith s sub then S (count_from sub (length sub - 1) t)
          else count_from sub 0 t
      end
  end.

Definition count (s sub : pystr) : nat := count_from sub 0 s.

(** [sep.join(pieces)] *)
Fixpoint join (sep : pystr) (pieces : list pystr) : pystr :=
  match pieces with
  | [] => []
  | [p] => p
  | p :: rest => p ++ sep ++ join sep rest
  end.

(** [s[:n]] *)
Definition prefix (n : nat) (s : pystr) : pystr := firstn n s.

End Py.

(* ================================================================== *)
(** * Python values *)
(* ================================================================== *)

Module Value.
Import Py.
Local Open Scope N_scope.

(** The objects [json.loads] builds and the normaliser handles.  A [dict]
    keeps its keys in insertion order, so it is an association list with
    one entry per key.  A [float] is kept as the text it was read from
    (or [NaN], [Infinity], [-Infinity]): binary floating point is outside
    the model. *)
Inductive value : Type :=
| VNone
| VBool (b : bool)
| VInt (z : Z)
| VFloat (text : pystr)
| VStr (s : pystr)
| VList (items : list value)
| VDict (entries : list (pystr * value)).

Definition dict := list (pystr * value).

(** [d.get(k)] *)
Fixpoint dict_get (k : pystr) (d : dict) : option value :=
  match d with
  | [] => None
  | (k', v) :: t => if str_eqb k k' then Some v else dict_get k t
  end.

(** [k in d] *)
Definition dict_contains (k : pystr) (d : dict) : bool :=
  match dict_get k d with Some _ => true | None => false end.

(** [d[k] = v]: an existing key keeps its place, a new one goes last. *)
Fixpoint dict_set (k : pystr) (v : value) (d : dict) : dict :=
  match d with
  | [] => [(k, v)]
  | (k', v') :: t =>
      if str_eqb k k' then (k, v) :: t else (k', v') :: dict_set k v t
  end.

(** [dict(pairs)] *)
Definition dict_of_pairs (pairs : list (pystr * value)) : dict :=
  fold_left (fun d kv => dict_set (fst kv) (snd kv) d) pairs [].

(** The exceptions that can leave the functions modelled here.  A
    [json.JSONDecodeError] never does: it is caught where it is raised.
    [ValueError] is the class itself, not its subclasses
    [JSONDecodeError] and [UnicodeEncodeError]. *)
Inductive exn : Type :=
| TypeError (msg : pystr)
| AttributeError (msg : pystr)
| RecursionError (msg : pystr)
| ValueError (msg : pystr)
| UnicodeEncodeError (msg : pystr)
| ConnectionError (msg : pystr)
| OtherError (msg : pystr).

(** [str(e)] *)
Definition exn_str (e : exn) : pystr :=
  match e with
  | TypeError m | AttributeError m | RecursionError m | ValueError m
  | UnicodeEncodeError m | ConnectionError m | OtherError m => m
  end.

(** What the interpreter supplies and this development does not compute:
    the text of a float, whether a float is non-zero, the Unicode
    database's printable characters above the ASCII range, the two limits
    the decoder of [json] runs into, and what [print] does with a text on
    the standard output of the process. *)
Record runtime : Type := {
  float_str : pystr -> pystr;      (* str(float(text)) *)
  float_bool : pystr -> bool;      (* bool(float(text)) *)
  isprintable : char -> bool;      (* str.isprintable, code points >= 128 *)
  int_max_str_digits : nat;        (* sys.get_int_max_str_digits(); 0: no limit *)
  max_nesting : positive;          (* the containers [json.loads] can open
                                      inside one another, where the handler
                                      calls it, before the recursion limit
                                      of the interpreter; the call itself
                                      being possible, at least one *)
  print_error_raises : pystr -> option exn;
                                   (* what [print] raises, if anything, on
                                      the text of the [JSONDecodeError] of a
                                      span the decoder refused *)
  print_raises : pystr -> option exn
                                   (* what [print(text)] raises, if anything *)
}.

Definition hex_digit (n : N) : char :=
  if n <? 10 then 48 + n else 87 + n.

(** [width] lowercase hexadecimal digits of [n], most significant first. *)
Fixpoint hex_digits (width : nat) (n : N) : pystr :=
  match width with
  | O => []
  | S w => hex_digits w (n / 16) ++ [hex_digit (n mod 16)]
  end.

Section Repr.
Variable rt : runtime.

(** One character of [repr] of a string delimited by [quote]
    (CPython's [unicode_repr]). *)
Definition repr_char (quote c : char) : pystr :=
  if (c =? quote) || (c =? 92) then [92; c]
  else if c =? 9 then [92; 116]
  else if c =? 10 then [92; 110]
  else if c =? 13 then [92; 114]
  else if (c <? 32) || (c =? 127) then [92; 120] ++ hex_digits 2 c
  else if c <? 127 then [c]
  else if isprintable rt c then [c]
  else if c <=? 255 then [92; 120] ++ hex_digits 2 c
  else if c <=? 65535 then [92; 117] ++ hex_digits 4 c
  else [92; 85] ++ hex_digits 8 c.

(** [repr(s)] for a string: single quotes unless the text has a single
    quote and no double quote. *)
Definition repr_str (s : pystr) : pystr :=
  let quote :=
    if existsb (N.eqb 39) s && negb (existsb (N.eqb 34) s) then 34 else 39 in
  quote :: flat_map (repr_char quote) s ++ [quote].

(** [str(z)] for an integer. *)
Definition int_str (z : Z) : pystr :=
  lit (DecimalString.NilZero.string_of_int (Z.to_int z)).

(** [repr(v)] *)
Fixpoint repr (v : value) : pystr :=
  match v with
  | VNone => lit "None"
  | VBool true => lit "True"
  | VBool false => lit "False"
  | VInt z => int_str z
  | VFloat text => float_str rt text
  | VStr s => repr_str s
  | VList items => [91] ++ join (lit ", ") (List.map repr items) ++ [93]
  | VDict entries =>
      [123] ++
      join (lit ", ")
        (List.map (fun kv => repr_str (fst kv) ++ lit ": " ++ repr (snd kv))
           entries) ++
      [125]
  end.

(** [str(v)] *)
Definition str (v : value) : pystr :=
  match v with
  | VStr s => s
  | _ => repr v
  end.

(** [bool(v)] *)
Definition truthy (v : value) : bool :=
  match v with
  | VNone => false
  | VBool b => b
  | VInt z => negb (Z.eqb z 0)
  | VFloat text => float_bool rt text
  | VStr s => nonempty s
  | VList items => match items with [] => false | _ => true end
  | VDict entries => match entries with [] => false | _ => true end
  end.

End Repr.

(** [type(v).__name__] *)
Definition type_name (v : value) : pystr :=
  match v with
  | VNone => lit "NoneType"
  | VBool _ => lit "bool"
  | VInt _ => lit "int"
  | VFloat _ => lit "float"
  | VStr _ => lit "str"
  | VList _ => lit "list"
  | VDict _ => lit "dict"
  end.

(** The outcome of a call: a result or a raised exception. *)
Inductive outcome (A : Type) : Type :=
| Return (a : A)
| Raise (e : exn).
Arguments Raise {A} e.

Definition bind {A B : Type} (m : outcome A) (k : A -> outcome B) : outcome B :=
  match m with
  | Return a => k a
  | Raise e => Raise e
  end.

(** [print(text)]: nothing comes back, and the standard output may refuse
    the text. *)
Definition print (rt : runtime) (text : pystr) : outcome unit :=
  match print_raises rt text with
  | Some e => Raise e
  | None => Return tt
  end.

(** [iter(v)]: the items a [for] loop over [v] visits. *)
Definition iterate (v : value) : outcome (list value) :=
  match v with
  | VList items => Return items
  | VStr s => Return (List.map (fun c => VStr [c]) s)
  | VDict entries => Return (List.map (fun kv => VStr (fst kv)) entries)
  | _ => Raise (TypeError (lit "'" ++ type_name v ++ lit "' object is not iterable"))
  end.

End Value.

(* ================================================================== *)
(** * [json.loads]

    CPython's decoder with its default settings ([strict] strings, no
    hooks), after [json/decoder.py], [json/scanner.py] and the scanner of
    [_json.c].  Every [JSONDecodeError] is the one result [Invalid]: the
    normaliser only tells a decoded value from a failure.  The two other
    exceptions of the decoder are results of their own: the [ValueError]
    of an integer with more digits than the interpreter converts, and the
    [RecursionError] of containers nested deeper than the interpreter
    lets the scanner go. *)
(* ================================================================== *)

Module Json.
Import Py Value.
Local Open Scope N_scope.

Inductive scan (A : Type) : Type :=
| Found (a : A)
| Invalid          (* JSONDecodeError *)
| Raised (e : exn) (* ValueError or RecursionError *)
| Exhausted.       (* the recursion bound of the model was reached *)
Arguments Invalid {A}.
Arguments Raised {A} e.
Arguments Exhausted {A}.

Definition and_then {A B : Type} (m : scan A) (k : A -> scan B) : scan B :=
  match m with
  | Found a => k a
  | Invalid => Invalid
  | Raised e => Raised e
  | Exhausted => Exhausted
  end.

Notation "'do' pat <- m ; k" :=
  (and_then m (fun found => match found with pat => k end))
  (at level 10, pat pattern, m at level 100, k at level 200).

(** [WHITESPACE_STR] *)
Definition is_ws (c : char) : bool :=
  (c =? 32) || (c =? 9) || (c =? 10) || (c =? 13).

(** The text after [WHITESPACE.match]. *)
Fixpoint skip_ws (s : pystr) : pystr :=
  match s with
  | c :: t => if is_ws c then skip_ws t else s
  | [] => []
  end.

Definition hex_value (c : char) : option N :=
  if (48 <=? c) && (c <=? 57) then Some (c - 48)
  else if (97 <=? c) && (c <=? 102) then Some (c - 87)
  else if (65 <=? c) && (c <=? 70) then Some (c - 55)
  else None.

(** The code unit of [\uXXXX], given its four digits. *)
Definition decode_uXXXX (a b c d : char) : option N :=
  match hex_value a, hex_value b, hex_value c, hex_value d with
  | Some x, Some y, Some z, Some w => Some (((x * 16 + y) * 16 + z) * 16 + w)
  | _, _, _, _ => None
  end.

(** [BACKSLASH] *)
Definition backslash (c : char) : option char :=
  if c =? 34 then Some 34          (* quote *)
  else if c =? 92 then Some 92     (* backslash *)
  else if c =? 47 then Some 47     (* slash *)
  else if c =? 98 then Some 8      (* b *)
  else if c =? 102 then Some 12    (* f *)
  else if c =? 110 then Some 10    (* n *)
  else if c =? 114 then Some 13    (* r *)
  else if c =? 116 then Some 9     (* t *)
  else None.

Definition is_high_surrogate (u : N) : bool := (55296 <=? u) && (u <=? 56319).
Definition is_low_surrogate (u : N) : bool := (56320 <=? u) && (u <=? 57343).
Definition join_surrogates (hi lo : N) : N :=
  65536 + N.lor (N.shiftl (hi - 55296) 10) (lo - 56320).

(** What one step of [scanstring] reads: a character, taken from the text
    or from a short escape, or the code unit of a [\uXXXX] escape. *)
Inductive code_unit : Type :=
| Plain (c : char)
| Escaped (u : N).

Definition push (u : code_unit) (r : scan (list code_unit * pystr))
  : scan (list code_unit * pystr) :=
  do (units, rest) <- r; Found (u :: units, rest).

(** One escape sequence, [t] being the text after the backslash: what it
    stands for and the number of characters of [t] it takes. *)
Definition escape (t : pystr) : option (code_unit * nat) :=
  match t with
  | [] => None
  | e :: t1 =>
      if negb (e =? 117) then
        match backslash e with
        | Some ch => Some (Plain ch, 1%nat)
        | None => None
        end
      else
        match t1 with
        | h1 :: h2 :: h3 :: h4 :: _ =>
            match decode_uXXXX h1 h2 h3 h4 with
            | Some uni => Some (Escaped uni, 5%nat)
            | None => None
            end
        | _ => None
        end
  end.

(** The loop of [scanstring]; [skip] counts the characters of an escape
    sequence that are still to be passed over. *)
Fixpoint scanstring_from (skip : nat) (s : pystr)
  : scan (list code_unit * pystr) :=
  match s with
  | [] => Invalid                                (* unterminated *)
  | c :: t =>
      match skip with
      | S k => scanstring_from k t
      | O =>
          if c =? 34 then Found ([], t)
          else if c <? 32 then Invalid           (* control character *)
          else if c =? 92 then
            match escape t with
            | Some (u, k) => push u (scanstring_from k t)
            | None => Invalid
            end
          else push (Plain c) (scanstring_from 0 t)
      end
  end.

(** The characters of the units read: the escape of a high surrogate
    followed at once by the escape of a low one is one character, as
    [scanstring] reads the second escape together with the first. *)
Fixpoint join_pairs (units : list code_unit) : pystr :=
  match units with
  | [] => []
  | Plain c :: rest => c :: join_pairs rest
  | Escaped hi :: rest =>
      match rest with
      | Escaped lo :: rest' =>
          if is_high_surrogate hi && is_low_surrogate lo
          then join_surrogates hi lo :: join_pairs rest'
          else hi :: join_pairs rest
      | _ => hi :: join_pairs rest
      end
  end.

(** [scanstring(s, end)], [s] being the text after the opening quote: the
    decoded string and the text after the closing quote. *)
Definition scanstring (s : pystr) : scan (pystr * pystr) :=
  do (units, rest) <- scanstring_from 0 s; Found (join_pairs units, rest).

Definition is_digit (c : char) : bool := (48 <=? c) && (c <=? 57).

(** The longest run of digits at the head of [s], and what follows. *)
Fixpoint span_digits (s : pystr) : pystr * pystr :=
  match s with
  | c :: t =>
      if is_digit c then let (ds, r) := span_digits t in (c :: ds, r)
      else ([], s)
  | [] => ([], [])
  end.

(** The three groups of [NUMBER_RE]: an optional minus sign and either a
    single zero or a digit from 1 to 9 with the digits after it; then an
    optional point with digits; then an optional exponent. *)
Definition match_integer (s : pystr) : option (pystr * pystr) :=
  let (sign, s1) :=
    match s with
    | c :: t => if c =? 45 then ([c], t) else ([], s)
    | [] => ([], s)
    end in
  match s1 with
  | c :: t =>
      if c =? 48 then Some (sign ++ [c], t)
      else if is_digit c
           then let (ds, r) := span_digits t in Some (sign ++ c :: ds, r)
           else None
  | [] => None
  end.

Definition match_fraction (s : pystr) : pystr * pystr :=
  match s with
  | c :: t =>
      if c =? 46 then
        match span_digits t with
        | ([], _) => ([], s)
        | (ds, r) => (c :: ds, r)
        end
      else ([], s)
  | [] => ([], s)
  end.

Definition match_exponent (s : pystr) : pystr * pystr :=
  match s with
  | c :: t =>
      if (c =? 101) || (c =? 69) then
        let (sign, t1) :=
          match t with
          | x :: t' => if (x =? 45) || (x =? 43) then ([x], t') else ([], t)
          | [] => ([], t)
          end in
        match span_digits t1 with
        | ([], _) => ([], s)
        | (ds, r) => (c :: sign ++ ds, r)
        end
      else ([], s)
  | [] => ([], s)
  end.

(** [int(text)] for a text [match_integer] accepted. *)
Definition parse_int (text : pystr) : Z :=
  let digits := fold_left (fun acc c => (acc * 10 + Z.of_N (c - 48))%Z) in
  match text with
  | c :: ds => if c =? 45 then (- digits ds 0)%Z else digits text 0%Z
  | [] => 0%Z
  end.

Definition match_number (s : pystr) : option (value * pystr) :=
  match match_integer s with
  | None => None
  | Some (integer, s1) =>
      let (frac, s2) := match_fraction s1 in
      let (exp, s3) := match_exponent s2 in
      match frac, exp with
      | [], [] => Some (VInt (parse_int integer), s3)
      | _, _ => Some (VFloat (integer ++ frac ++ exp), s3)
      end
  end.

(** [s] without the prefix [p], when it starts with it. *)
Fixpoint after (p s : pystr) {struct p} : option pystr :=
  match p, s with
  | [], _ => Some s
  | a :: p', b :: s' => if a =? b then after p' s' else None
  | _ :: _, [] => None
  end.

Section Containers.
(** The scanner for one value, as [JSONObject] and [JSONArray] receive it. *)
Variable scan_once : pystr -> scan (value * pystr).

(** The loop of [JSONObject]; [s] is the text after the quote that opens
    a key, [pairs] the members read so far. *)
Fixpoint object_members (n : nat) (s : pystr) (pairs : list (pystr * value))
  : scan (value * pystr) :=
  match n with
  | O => Exhausted
  | S n' =>
      do (key, s1) <- scanstring s;
      match skip_ws s1 with
      | c :: s2 =>
          if negb (c =? 58) then Invalid          (* expecting ':' *)
          else
            do (v, s3) <- scan_once (skip_ws s2);
            let pairs := pairs ++ [(key, v)] in
            match skip_ws s3 with
            | d :: s4 =>
                if d =? 125 then Found (VDict (dict_of_pairs pairs), s4)
                else if negb (d =? 44) then Invalid   (* expecting ',' *)
                else
                  match skip_ws s4 with
                  | q :: s5 =>
                      if q =? 34 then object_members n' s5 pairs
                      else Invalid                (* expecting a name *)
                  | [] => Invalid
                  end
            | [] => Invalid
            end
      | [] => Invalid
      end
  end.

(** [JSONObject]; [s] is the text after the opening brace. *)
Definition JSONObject (n : nat) (s : pystr) : scan (value * pystr) :=
  match skip_ws s with
  | c :: t =>
      if c =? 125 then Found (VDict [], t)
      else if c =? 34 then object_members n t []
      else Invalid
  | [] => Invalid
  end.

(** The loop of [JSONArray]; [s] is the text where the next item starts. *)
Fixpoint array_items (n : nat) (s : pystr) (values : list value)
  : scan (value * pystr) :=
  match n with
  | O => Exhausted
  | S n' =>
      do (v, s1) <- scan_once s;
      let values := values ++ [v] in
      match skip_ws s1 with
      | d :: s2 =>
          if d =? 93 then Found (VList values, s2)
          else if negb (d =? 44) then Invalid     (* expecting ',' *)
          else array_items n' (skip_ws s2) values
      | [] => Invalid
      end
  end.

(** [JSONArray]; [s] is the text after the opening bracket. *)
Definition JSONArray (n : nat) (s : pystr) : scan (value * pystr) :=
  match skip_ws s with
  | c :: t =>
      if c =? 93 then Found (VList [], t)
      else array_items n (skip_ws s) []
  | [] => Invalid
  end.

End Containers.

(** The number of digits of the integer at the head of [s]. *)
Definition int_digits (s : pystr) : nat :=
  match match_integer s with
  | Some (integer, _) => length (filter is_digit integer)
  | None => 0
  end.

Section Limits.
Variable rt : runtime.

(** Whether [int(text)] refuses a text of that many digits: more than the
    limit of the interpreter, when there is one; a text of at most 640
    digits is converted whatever the limit ([PyLong_FromString]). *)
Definition int_refused (digits : nat) : bool :=
  (640 <? digits)%nat && (0 <? int_max_str_digits rt)%nat
  && (int_max_str_digits rt <? digits)%nat.

Definition int_refused_error (digits : nat) : exn :=
  ValueError
    (lit "Exceeds the limit (" ++ int_str (Z.of_nat (int_max_str_digits rt))
     ++ lit " digits) for integer string conversion: value has "
     ++ int_str (Z.of_nat digits)
     ++ lit " digits; use sys.set_int_max_str_digits() to increase the limit").

(** What the scanner makes of the number [match_number] found at the head
    of [s]: the number, or the [ValueError] of [int]. *)
Definition number_result (s : pystr) (found : value * pystr)
  : scan (value * pystr) :=
  match fst found with
  | VInt _ =>
      if int_refused (int_digits s)
      then Raised (int_refused_error (int_digits s))
      else Found found
  | _ => Found found
  end.

(** What [Py_EnterRecursiveCall] raises where the scanner enters a
    container. *)
Definition too_deep (container : pystr) : exn :=
  RecursionError
    (lit "maximum recursion depth exceeded while decoding a JSON "
     ++ container ++ lit " from a unicode string").

(** [_scan_once]: one JSON value at the head of [s], with the text after
    it.  [depth] is the number of containers that can still be opened
    inside one another.  [fuel] bounds the recursion of the model and the
    length of the loops of the containers; [loads] passes more than any
    text can use. *)
Fixpoint scan_once (fuel depth : nat) (s : pystr) : scan (value * pystr) :=
  match fuel with
  | O => Exhausted
  | S fuel' =>
      match s with
      | [] => Invalid
      | c :: t =>
          if c =? 34 then do (text, r) <- scanstring t; Found (VStr text, r)
          else if c =? 123 then
            match depth with
            | O => Raised (too_deep (lit "object"))
            | S depth' => JSONObject (scan_once fuel' depth') fuel' t
            end
          else if c =? 91 then
            match depth with
            | O => Raised (too_deep (lit "array"))
            | S depth' => JSONArray (scan_once fuel' depth') fuel' t
            end
          else
            match after (lit "null") s, after (lit "true") s,
                  after (lit "false") s with
            | Some r, _, _ => Found (VNone, r)
            | None, Some r, _ => Found (VBool true, r)
            | None, None, Some r => Found (VBool false, r)
            | None, None, None =>
                match match_number s with
                | Some found => number_result s found
                | None =>
                    match after (lit "NaN") s, after (lit "Infinity") s,
                          after (lit "-Infinity") s with
                    | Some r, _, _ => Found (VFloat (lit "NaN"), r)
                    | None, Some r, _ => Found (VFloat (lit "Infinity"), r)
                    | None, None, Some r => Found (VFloat (lit "-Infinity"), r)
                    | None, None, None => Invalid
                    end
                end
            end
      end
  end.

(** [json.loads(s)] *)
Definition loads (s : pystr) : scan value :=
  if startswith s [65279] then Invalid           (* byte order mark *)
  else
    do (v, rest) <-
      scan_once (S (length s)) (Pos.to_nat (max_nesting rt)) (skip_ws s);
    match skip_ws rest with
    | [] => Found v
    | _ :: _ => Invalid                          (* extra data *)
    end.

End Limits.

End Json.

(* ================================================================== *)
(** * [re.search] for the pattern of the normaliser *)
(* ================================================================== *)

Module Re.
Import Py.
Local Open Scope N_scope.

(** The longest prefix of [s] that ends with a closing brace: what the
    greedy class [[\s\S]*] followed by a closing brace matches at the head
    of [s]. *)
Fixpoint upto_last_brace (s : pystr) : option pystr :=
  match s with
  | [] => None
  | c :: t =>
      match upto_last_brace t with
      | Some m => Some (c :: m)
      | None => if c =? 125 then Some [c] else None
      end
  end.

(** [re.search(pattern, s).group()] for the pattern that is an opening
    brace, any characters, a closing brace: the leftmost position where
    the pattern matches, and the longest match there. *)
Fixpoint search (s : pystr) : option pystr :=
  match s with
  | [] => None
  | c :: t =>
      if c =? 123 then
        match upto_last_brace t with
        | Some m => Some (c :: m)
        | None => search t
        end
      else search t
  end.

End Re.

(* ================================================================== *)
(** * [app.py] *)
(* ================================================================== *)

Module App.
Import Py Value.
Local Open Scope N_scope.

Definition OLLAMA_MODEL : pystr := lit "llama3.2".

(** [create_analysis_prompt(transcript)] *)
Definition create_analysis_prompt (transcript : pystr) : pystr :=
  jlit "You are a meeting analysis assistant. Analyze this transcript and extract key information.

Meeting Transcript:
"
  ++ transcript ++
  jlit "

CRITICAL: Return ONLY valid JSON. No markdown, no explanations, no code blocks. Just the JSON object.

Required JSON structure:
{
    'meeting_summary': '2-3 sentence summary here',
    'participants': ['Name1', 'Name2'],
    'key_decisions': [
        'Decision 1 text here',
        'Decision 2 text here'
    ],
    'action_items': [
        'Action item 1 with owner and deadline',
        'Action item 2 with owner and deadline'
    ],
    'discussion_points': [
        'Discussion point 1',
        'Discussion point 2'
    ]
}

Rules:
- Each array item must be a SEPARATE string, not concatenated
- Extract 3-6 key decisions (major choices made)
- Extract 3-6 action items (tasks with owners/deadlines)
- Extract 4-8 discussion points (topics covered)
- Keep each item to 1-2 sentences maximum
- List all participant names
- Return ONLY the JSON object, nothing else".

(** The marker of a fenced block and the delimiter of merged items. *)
Definition fence : pystr := lit "```".
Definition newline : pystr := [10].
Definition delimiter : pystr := lit " - ".

Definition meeting_summary : pystr := lit "meeting_summary".
Definition participants : pystr := lit "participants".
Definition key_decisions : pystr := lit "key_decisions".
Definition action_items : pystr := lit "action_items".
Definition discussion_points : pystr := lit "discussion_points".

Definition required_keys : list pystr :=
  [meeting_summary; participants; key_decisions; action_items;
   discussion_points].

(** The keys of the post-processing loop. *)
Definition item_keys : list pystr :=
  [key_decisions; action_items; discussion_points].

(** Lines 59 to 66: the body of [if cleaned.startswith(fence)]. *)
Definition remove_code_block (cleaned : pystr) : pystr :=
  if startswith cleaned fence then
    let lines := split cleaned newline in
    let lines := if startswith (hd [] lines) fence then tl lines else lines in
    let lines :=
      match lines with
      | [] => lines
      | _ :: _ =>
          if startswith (last lines []) fence then removelast lines else lines
      end in
    join newline lines
  else cleaned.

(** Lines 76 to 78: one turn of the loop over [required_keys]. *)
Definition ensure_key (parsed : dict) (key : pystr) : dict :=
  if negb (dict_contains key parsed) then
    dict_set key
      (if negb (str_eqb key meeting_summary) then VList []
       else VStr (lit "No summary available"))
      parsed
  else parsed.

Section Normaliser.
Variable rt : runtime.

(** Lines 85 to 93: one turn of the loop over the items of a field. *)
Definition clean_item (cleaned_items : list pystr) (item : value) : list pystr :=
  match item with
  | VStr s =>
      if contains delimiter s && (2 <? count s delimiter)%nat then
        let split_items :=
          List.map strip
            (filter (fun p => nonempty (strip p)) (split s delimiter)) in
        cleaned_items ++ split_items
      else cleaned_items ++ [strip s]
  | _ => cleaned_items ++ [str rt item]
  end.

(** Lines 82 to 94: one turn of the loop over [item_keys]. *)
Definition split_key (parsed : dict) (key : pystr) : outcome dict :=
  match dict_get key parsed with
  | Some field =>
      if truthy rt field then
        bind (iterate field) (fun items =>
          let cleaned_items := fold_left clean_item items [] in
          Return (dict_set key (VList (List.map VStr cleaned_items)) parsed))
      else Return parsed
  | None => Return parsed
  end.

(** Lines 74 to 96: what is done with the decoded object. *)
Definition complete (parsed : dict) : outcome dict :=
  let parsed := fold_left ensure_key required_keys parsed in
  fold_left (fun acc key => bind acc (fun parsed => split_key parsed key))
    item_keys (Return parsed).

(** Lines 102 to 108. *)
Definition fallback (response_text : pystr) : dict :=
  [ (key_decisions,
      VList [VStr (lit "Unable to parse LLM response - JSON format error")]);
    (action_items,
      VList [VStr (lit "Try analyzing again or use a different model")]);
    (discussion_points,
      VList [VStr (lit "Raw response: " ++ prefix 300 response_text
                   ++ lit "...")]);
    (participants, VList []);
    (meeting_summary,
      VStr (lit "Error: Could not parse the LLM response into structured format")) ].

(** The text the pattern is searched in (lines 58 to 66). *)
Definition cleaned_text (response_text : pystr) : pystr :=
  remove_code_block (strip response_text).

(** Lines 98 and 99: the two [print] calls of the handler of
    [JSONDecodeError].  What they write is not kept; what they raise
    leaves the normaliser. *)
Definition report_decode_error (json_match : pystr) : outcome unit :=
  bind (match print_error_raises rt json_match with
        | Some e => Raise e
        | None => Return tt
        end) (fun _ =>
  print rt (lit "Attempted to parse: " ++ prefix 200 json_match)).

(** [extract_json_from_response(response_text)].  The [except] clause
    catches [JSONDecodeError] only: any other exception of the decoder,
    of the loops over the fields or of the two [print] calls leaves the
    function. *)
Definition extract_json_from_response (response_text : pystr) : outcome dict :=
  match Re.search (cleaned_text response_text) with
  | Some json_match =>
      match Json.loads rt json_match with
      | Json.Found (VDict parsed) => complete parsed
      | Json.Found _ =>
          (* not reached: the match opens with a brace, so that the
             decoder returns a dict or fails *)
          Raise (TypeError [])
      | Json.Invalid =>
          bind (report_decode_error json_match) (fun _ =>
            Return (fallback response_text))
      | Json.Raised e => Raise e
      | Json.Exhausted =>
          (* not reached: the decoder is given fuel enough *)
          Raise (Json.too_deep [])
      end
  | None => Return (fallback response_text)
  end.

(** ** The handler of [POST /api/analyze] *)

(** What [ollama.chat] does with a prompt: a reply with its
    [message.content], or an exception. *)
Inductive chat_result : Type :=
| ChatReply (content : pystr)
| ChatRaises (e : exn).

Record response : Type := {
  status : N;
  body : dict
}.

(** The body of the [try]: the prompts sent to the model, in order, and
    the response or the exception raised.  [data] is [request.json]. *)
Definition analyze_meeting_try (chat : pystr -> chat_result) (data : value)
  : list pystr * outcome response :=
  match data with
  | VDict d =>
      let transcript :=
        match dict_get (lit "transcript") d with
        | Some v => v
        | None => VStr []
        end in
      match transcript with
      | VStr text =>
          if negb (nonempty (strip text)) then
            ([], Return {| status := 400;
                           body := [(lit "error", VStr (lit "Empty transcript"))] |})
          else
            let prompt := create_analysis_prompt text in
            match chat prompt with
            | ChatReply response_text =>
                ([prompt],
                 bind (extract_json_from_response response_text) (fun analysis =>
                   Return {| status := 200;
                             body := [ (lit "success", VBool true);
                                       (lit "analysis", VDict analysis);
                                       (lit "model_used", VStr OLLAMA_MODEL);
                                       (lit "raw_response", VStr response_text) ] |}))
            | ChatRaises e => ([prompt], Raise e)
            end
      | _ =>
          ([], Raise (AttributeError
                 (lit "'" ++ type_name transcript
                  ++ lit "' object has no attribute 'strip'")))
      end
  | _ =>
      ([], Raise (AttributeError
             (lit "'" ++ type_name data ++ lit "' object has no attribute 'get'")))
  end.

(** [analyze_meeting()] with its two [except] clauses. *)
Definition analyze_meeting (chat : pystr -> chat_result) (data : value)
  : list pystr * response :=
  let (prompts, result) := analyze_meeting_try chat data in
  (prompts,
   match result with
   | Return r => r
   | Raise (ConnectionError msg) =>
       {| status := 500;
          body := [ (lit "error", VStr (lit "Cannot connect to Ollama"));
                    (lit "suggestion",
                      VStr (lit "Make sure Ollama is running: ollama serve"));
                    (lit "details", VStr msg) ] |}
   | Raise e =>
       {| status := 500;
          body := [ (lit "error", VStr (lit "Error: " ++ exn_str e));
                    (lit "suggestion",
                      VStr (lit "Make sure model is available: ollama pull "
                            ++ OLLAMA_MODEL)) ] |}
   end).

End Normaliser.

End App.

(* ================================================================== *)
(** * The specification's vocabulary *)
(* ================================================================== *)

Module Spec.
Import Py Value App.
Local Open Scope N_scope.

(** [c] is a surrogate code point. *)
Definition is_surrogate (c : char) : bool := (55296 <=? c) && (c <=? 57343).

(** The length of the run of surrogates at the head of [s]. *)
Fixpoint surrogate_run (s : pystr) : nat :=
  match s with
  | c :: t => if is_surrogate c then S (surrogate_run t) else O
  | [] => O
  end.

(** What the strict UTF-8 encoder of a text stream raises on [text]:
    nothing when the text has no surrogate, else [UnicodeEncodeError] for
    the first run of them; [position] is the index of the head of [text]
    in the text written. *)
Fixpoint utf8_refusal (position : nat) (text : pystr) : option exn :=
  match text with
  | [] => None
  | c :: t =>
      if is_surrogate c then
        Some (UnicodeEncodeError
                (match surrogate_run t with
                 | O =>
                     lit "'utf-8' codec can't encode character '\u"
                     ++ hex_digits 4 c ++ lit "' in position "
                     ++ int_str (Z.of_nat position)
                 | S more =>
                     lit "'utf-8' codec can't encode characters in position "
                     ++ int_str (Z.of_nat position) ++ lit "-"
                     ++ int_str (Z.of_nat (position + S more))
                 end ++ lit ": surrogates not allowed"))
      else utf8_refusal (S position) t
  end.

(** The runtime the examples are evaluated with: the limits of an
    interpreter as it is installed (4300 digits, and of the recursion
    limit of 1000 what the frames of a request leave to the decoder,
    taken to be 950) and a standard output in strict UTF-8, which the
    messages of the decoder, ASCII texts, always pass.  The examples
    take the text of no float and of no character outside the ASCII
    range. *)
Definition example_runtime : runtime :=
  {| float_str := fun text => text;
     float_bool := fun _ => true;
     isprintable := fun _ => true;
     int_max_str_digits := 4300;
     max_nesting := 950;
     print_error_raises := fun _ => None;
     print_raises := utf8_refusal 0 |}.

(** The object the normaliser decoded from a response, when it did. *)
Definition parsed_object (rt : runtime) (response_text : pystr) : option dict :=
  match Re.search (cleaned_text response_text) with
  | Some json_match =>
      match Json.loads rt json_match with
      | Json.Found (VDict parsed) => Some parsed
      | _ => None
      end
  | None => None
  end.

(** The default of a required field. *)
Definition default_value (key : pystr) : value :=
  if str_eqb key meeting_summary then VStr (lit "No summary available")
  else VList [].

(** [c] does not occur in [s]. *)
Definition free_of (c : char) (s : pystr) : Prop :=
  existsb (N.eqb c) s = false.

(** [s] is empty or holds white space only. *)
Definition blank (s : pystr) : Prop := forallb isspace s = true.

(** [s] has no white space at either end. *)
Definition trimmed (s : pystr) : Prop := strip s = s.

(** The split rule in the specification's words: a string with the
    delimiter more than twice is split on it, each piece trimmed and the
    empty pieces dropped; any other string is kept, trimmed. *)
Definition pieces (s : pystr) : list pystr :=
  if (2 <? count s delimiter)%nat
  then filter nonempty (List.map strip (split s delimiter))
  else [strip s].

(** De-concatenation as the specification words it: every element is
    coerced to a string, then the split rule applies to that string. *)
Definition deconcatenate_coerce_first (rt : runtime) (items : list value)
  : list pystr :=
  flat_map (fun item => pieces (str rt item)) items.

(** De-concatenation with the split rule applied to strings only; any
    other element is coerced and kept whole. *)
Definition deconcatenate (rt : runtime) (items : list value) : list pystr :=
  flat_map (fun item =>
              match item with
              | VStr s => pieces s
              | _ => [str rt item]
              end) items.

(** What the pass over [item_keys] makes of the field [field] of key [k]:
    a field of another key, or one that is falsy, stays as it is. *)
Definition rewritten (rt : runtime) (k : pystr) (field : value) : value :=
  if existsb (str_eqb k) item_keys && truthy rt field then
    match iterate field with
    | Return items => VList (List.map VStr (deconcatenate rt items))
    | Raise _ => field
    end
  else field.

(** A list of strings none of which the normaliser rewrites. *)
Definition settled (items : list value) : Prop :=
  Forall (fun item =>
            exists s, item = VStr s /\ trimmed s
                      /\ (count s delimiter <= 2)%nat) items.

End Spec.

(* ================================================================== *)
(** * The notions the proofs about the decoder rest on *)
(* ================================================================== *)

Module Invariants.
Import Py Value.
Local Open Scope N_scope.

(** A scan of [s] that does not stop for want of fuel and, when it finds
    something, leaves less text than it was given. *)
Definition progresses {A : Type} (m : Json.scan (A * pystr)) (s : pystr) : Prop :=
  m <> Json.Exhausted /\
  forall a r, m = Json.Found (a, r) -> (length r < length s)%nat.

(** [s] is empty or opens with a character that [p] rejects. *)
Definition opens_without (p : char -> bool) (s : pystr) : Prop :=
  match s with
  | c :: _ => p c = false
  | [] => True
  end.

(** The characters that may follow a value inside an array or an object:
    white space, a comma, a closing bracket, a closing brace. *)
Definition stop (c : char) : bool :=
  Json.is_ws c || (c =? 44) || (c =? 93) || (c =? 125).

(** [r] opens with a character that may follow a value. *)
Definition stops (r : pystr) : Prop :=
  match r with
  | c :: _ => stop c = true
  | [] => False
  end.

(** The values whose text carries its own end: strings, arrays, objects. *)
Definition delimited (v : value) : Prop :=
  match v with
  | VStr _ | VList _ | VDict _ => True
  | _ => False
  end.

(** Whatever [scan] finds at the head of a text, [scan'] finds at the head
    of any text of length under [bound] that starts the same way and goes
    on with a [stops] text, or with any text after a [delimited] value. *)
Definition local (scan scan' : pystr -> Json.scan (value * pystr))
  (bound : nat) : Prop :=
  forall s v r,
    scan s = Json.Found (v, r) ->
    exists pre,
      s = pre ++ r /\ pre <> [] /\
      (forall d, v = VDict d -> exists mid, pre = 123 :: mid ++ [125]) /\
      forall r', delimited v \/ stops r' ->
                 (length (pre ++ r') < bound)%nat ->
                 scan' (pre ++ r') = Json.Found (v, r').

End Invariants.

(* ================================================================== *)
(** * The endpoints that list the models *)
(* ================================================================== *)

Module Endpoints.
Import Py Value App.
Local Open Scope N_scope.

(** What [ollama.list] does: a reply, or an exception. *)
Inductive list_result : Type :=
| ListReply (models_response : value)
| ListRaises (e : exn).

(** [d.get(k)], with [None] for a missing key. *)
Definition get_or_none (k : pystr) (d : dict) : value :=
  match dict_get k d with
  | Some v => v
  | None => VNone
  end.

(** [models_response.get('models', [])] under [isinstance(..., dict)],
    the empty list otherwise (lines 118 to 121 and 215 to 218). *)
Definition models_list (models_response : value) : value :=
  match models_response with
  | VDict d =>
      match dict_get (lit "models") d with
      | Some v => v
      | None => VList []
      end
  | _ => VList []
  end.

(** [v] can be the subject of a [for] loop. *)
Definition iterable (v : value) : bool :=
  match v with
  | VList _ | VStr _ | VDict _ => true
  | _ => false
  end.

Section Models.
Variable rt : runtime.

(** [a or b] *)
Definition py_or (a b : value) : value := if truthy rt a then a else b.

(** One turn of the loop over [models_list] (lines 126 to 132 and 222 to
    227, the same text in both endpoints). *)
Definition collect_name (model_names : list value) (model : value)
  : list value :=
  match model with
  | VDict m =>
      let name :=
        py_or (py_or (get_or_none (lit "name") m) (get_or_none (lit "model") m))
          (get_or_none (lit "id") m) in
      if truthy rt name then model_names ++ [name] else model_names
  | VStr _ => model_names ++ [model]
  | _ => model_names
  end.

(** The names both endpoints return for a reply of [ollama.list]. *)
Definition model_names (models_response : value) : outcome (list value) :=
  bind (iterate (models_list models_response)) (fun models =>
    Return (fold_left collect_name models [])).

Definition list_models_try (reply : list_result) : outcome (list value) :=
  match reply with
  | ListReply models_response => model_names models_response
  | ListRaises e => Raise e
  end.

(** [health_check()] with its two [except] clauses. *)
Definition health_check (reply : list_result) : response :=
  match list_models_try reply with
  | Return names =>
      {| status := 200;
         body := [ (lit "status", VStr (lit "healthy"));
                   (lit "ollama_running", VBool true);
                   (lit "available_models", VList names);
                   (lit "current_model", VStr OLLAMA_MODEL);
                   (lit "models_count", VInt (Z.of_nat (length names))) ] |}
  | Raise (ConnectionError msg) =>
      {| status := 500;
         body := [ (lit "status", VStr (lit "error"));
                   (lit "ollama_running", VBool false);
                   (lit "error",
                     VStr (lit "Cannot connect to Ollama. Make sure Ollama is running (ollama serve)"));
                   (lit "details", VStr msg) ] |}
  | Raise e =>
      {| status := 500;
         body := [ (lit "status", VStr (lit "error"));
                   (lit "ollama_running", VBool false);
                   (lit "error", VStr (lit "Ollama error: " ++ exn_str e));
                   (lit "suggestion",
                     VStr (lit "Run: ollama list (to check if Ollama is working)")) ] |}
  end.

(** [list_models()] with its [except] clause. *)
Definition list_models (reply : list_result) : response :=
  match list_models_try reply with
  | Return names => {| status := 200; body := [(lit "models", VList names)] |}
  | Raise e =>
      {| status := 500;
         body := [ (lit "error", VStr (exn_str e)); (lit "models", VList []) ] |}
  end.

(** The names an entry of the list stands for, in other words: a string
    stands for itself, a dict for the first truthy value among its
    [name], [model] and [id], anything else for nothing. *)
Definition entry_names (model : value) : list value :=
  match model with
  | VDict m =>
      match find (truthy rt)
              [ get_or_none (lit "name") m; get_or_none (lit "model") m;
                get_or_none (lit "id") m ] with
      | Some name => [name]
      | None => []
      end
  | VStr _ => [model]
  | _ => []
  end.

End Models.

End Endpoints.

(* ================================================================== *)
(** * Facts about the string operations *)
(* ================================================================== *)

Module PyFacts.
Import Py.
Local Open Scope N_scope.

Lemma str_eqb_eq (a b : pystr) : str_eqb a b = true <-> a = b.
Proof.
  unfold str_eqb. destruct (list_eq_dec N.eq_dec a b); split; congruence.
Qed.

Lemma str_eqb_refl (a : pystr) : str_eqb a a = true.
Proof. now apply str_eqb_eq. Qed.

Lemma str_eqb_neq (a b : pystr) : str_eqb a b = false <-> a <> b.
Proof.
  unfold str_eqb. destruct (list_eq_dec N.eq_dec a b); split; congruence.
Qed.

Lemma startswith_app (p r : pystr) : startswith (p ++ r) p = true.
Proof.
  induction p as [|a p IH]; simpl; [reflexivity|].
  now rewrite N.eqb_refl, IH.
Qed.

Lemma startswith_spec (s p : pystr) :
  startswith s p = true <-> exists r, s = p ++ r.
Proof.
  split.
  - revert s. induction p as [|a p IH]; intros s H.
    + now exists s.
    + destruct s as [|b s]; simpl in H; [discriminate|].
      apply andb_true_iff in H. destruct H as [Hab H].
      apply N.eqb_eq in Hab. subst b.
      destruct (IH _ H) as [r ->]. now exists r.
  - intros [r ->]. apply startswith_app.
Qed.

Lemma startswith_app_l (s r p : pystr) :
  startswith s p = true -> startswith (s ++ r) p = true.
Proof.
  intros H. apply startswith_spec in H. destruct H as [q ->].
  rewrite <- app_assoc. apply startswith_app.
Qed.

Lemma contains_startswith (sub s : pystr) :
  contains sub s = false -> startswith s sub = false.
Proof.
  destruct s; simpl; intros H; apply orb_false_iff in H; tauto.
Qed.

(** ** [strip] *)

Lemma lstrip_blank (s r : pystr) :
  forallb isspace s = true -> lstrip (s ++ r) = lstrip r.
Proof.
  induction s as [|c s IH]; simpl; [reflexivity|].
  intros H. apply andb_true_iff in H. destruct H as [Hc H].
  rewrite Hc. now apply IH.
Qed.

Lemma lstrip_head (c : char) (t : pystr) :
  isspace c = false -> lstrip (c :: t) = c :: t.
Proof. simpl. now intros ->. Qed.

Lemma forallb_rev {A} (f : A -> bool) (l : list A) :
  forallb f (rev l) = forallb f l.
Proof.
  induction l as [|a l IH]; simpl; [reflexivity|].
  rewrite forallb_app, IH. simpl. rewrite andb_true_r. apply andb_comm.
Qed.

Lemma existsb_rev {A} (f : A -> bool) (l : list A) :
  existsb f (rev l) = existsb f l.
Proof.
  induction l as [|a l IH]; simpl; [reflexivity|].
  rewrite existsb_app, IH. simpl. rewrite orb_false_r. apply orb_comm.
Qed.

Lemma rstrip_blank (s r : pystr) :
  forallb isspace r = true -> rstrip (s ++ r) = rstrip s.
Proof.
  intros H. unfold rstrip. rewrite rev_app_distr.
  rewrite lstrip_blank; [reflexivity|]. now rewrite forallb_rev.
Qed.

Lemma rstrip_last (s : pystr) (c : char) :
  isspace c = false -> rstrip (s ++ [c]) = s ++ [c].
Proof.
  intros H. unfold rstrip. rewrite rev_app_distr. simpl.
  rewrite H. simpl. now rewrite rev_involutive.
Qed.

Lemma strip_blank (s : pystr) : forallb isspace s = true -> strip s = [].
Proof.
  intros H. unfold strip.
  rewrite <- (app_nil_r s), lstrip_blank by assumption. reflexivity.
Qed.

(** Trimming leaves a text that starts and ends with something else than
    white space, and removes the white space around it. *)
Lemma strip_core (a b mid : pystr) (c d : char) :
  forallb isspace a = true -> forallb isspace b = true ->
  isspace c = false -> isspace d = false ->
  strip (a ++ (c :: mid ++ [d]) ++ b) = c :: mid ++ [d].
Proof.
  intros Ha Hb Hc Hd. unfold strip.
  rewrite lstrip_blank by assumption.
  simpl. rewrite Hc.
  change (c :: (mid ++ [d]) ++ b) with ((c :: mid ++ [d]) ++ b).
  rewrite rstrip_blank by assumption.
  change (c :: mid ++ [d]) with ((c :: mid) ++ [d]).
  now apply rstrip_last.
Qed.

Lemma strip_single (c : char) :
  strip [c] = if isspace c then [] else [c].
Proof.
  unfold strip, rstrip. simpl. destruct (isspace c) eqn:E; simpl; [reflexivity|].
  now rewrite E.
Qed.

Lemma lstrip_suffix (s : pystr) : exists a, s = a ++ lstrip s.
Proof.
  induction s as [|c t [a IH]]; [now exists []|].
  cbn [lstrip]. destruct (isspace c).
  - exists (c :: a). cbn [app]. now f_equal.
  - now exists [].
Qed.

Lemma strip_segment (s : pystr) : exists a b, s = a ++ strip s ++ b.
Proof.
  destruct (lstrip_suffix s) as [a Ha]. unfold strip, rstrip.
  destruct (lstrip_suffix (rev (lstrip s))) as [b Hb].
  exists a, (rev b). rewrite <- rev_app_distr, <- Hb, rev_involutive.
  exact Ha.
Qed.

Lemma contains_segment (sub a r : pystr) : contains sub (a ++ sub ++ r) = true.
Proof.
  induction a as [|c t IH]; cbn [app].
  - destruct (sub ++ r) eqn:E; cbn [contains]; rewrite <- E;
      now rewrite startswith_app.
  - cbn [contains]. rewrite IH. apply orb_true_r.
Qed.

(** ** [split] and [join] on line breaks *)

Lemma split_from_not_nil (sep : pystr) (skip : nat) (s : pystr) :
  split_from sep skip s <> [].
Proof.
  revert skip. induction s as [|c t IH]; intros skip; simpl; [discriminate|].
  destruct skip; [|apply IH].
  destruct (startswith (c :: t) sep); [discriminate|].
  destruct (split_from sep 0 t); discriminate.
Qed.

Lemma split_lines_cons (c : char) (t : pystr) :
  split (c :: t) [10] =
  if c =? 10 then [] :: split t [10]
  else match split t [10] with
       | piece :: rest => (c :: piece) :: rest
       | [] => [[c]]
       end.
Proof.
  unfold split.
  change (split_from [10] 0 (c :: t))
    with (if (10 =? c) && true then [] :: split_from [10] 0 t
          else match split_from [10] 0 t with
               | piece :: rest => (c :: piece) :: rest
               | [] => [[c]]
               end).
  now rewrite andb_true_r, (N.eqb_sym 10 c).
Qed.

Lemma join_cons (sep p : pystr) (rest : list pystr) :
  rest <> [] -> join sep (p :: rest) = p ++ sep ++ join sep rest.
Proof. destruct rest; [congruence|reflexivity]. Qed.

Lemma join_split_lines (s : pystr) : join [10] (split s [10]) = s.
Proof.
  induction s as [|c t IH]; [reflexivity|].
  rewrite split_lines_cons.
  pose proof (@split_from_not_nil [10] 0 t) as Hne. fold (split t [10]) in Hne.
  destruct (N.eqb_spec c 10) as [->|Hc].
  - rewrite join_cons by assumption. simpl. now rewrite IH.
  - destruct (split t [10]) as [|piece rest]; [congruence|].
    destruct rest as [|q rest]; simpl in *; now rewrite <- IH.
Qed.

Lemma split_one_line (a : pystr) :
  existsb (N.eqb 10) a = false -> split a [10] = [a].
Proof.
  induction a as [|c t IH]; [reflexivity|]. cbn [existsb]. intros H.
  apply orb_false_iff in H. destruct H as [Hc H].
  rewrite split_lines_cons, (N.eqb_sym c 10), Hc, IH by assumption.
  reflexivity.
Qed.

Lemma split_first_line (a b : pystr) :
  existsb (N.eqb 10) a = false ->
  split (a ++ 10 :: b) [10] = a :: split b [10].
Proof.
  induction a as [|c t IH]; cbn [existsb app]; intros H.
  - now rewrite split_lines_cons.
  - apply orb_false_iff in H. destruct H as [Hc H].
    rewrite split_lines_cons, (N.eqb_sym c 10), Hc, IH by assumption.
    reflexivity.
Qed.

Lemma split_last_line (body close : pystr) :
  existsb (N.eqb 10) close = false ->
  split (body ++ 10 :: close) [10] = split body [10] ++ [close].
Proof.
  intros H. induction body as [|c t IH]; cbn [app].
  - rewrite split_lines_cons, N.eqb_refl. now rewrite split_one_line.
  - rewrite !split_lines_cons, IH.
    destruct (c =? 10); [reflexivity|].
    pose proof (@split_from_not_nil [10] 0 t) as Hne. fold (split t [10]) in Hne.
    destruct (split t [10]); [congruence|reflexivity].
Qed.

End PyFacts.

(* ================================================================== *)
(** * Facts about dicts *)
(* ================================================================== *)

Module DictFacts.
Import Py Value PyFacts.

Lemma dict_get_set_same (k : pystr) (v : value) (d : dict) :
  dict_get k (dict_set k v d) = Some v.
Proof.
  induction d as [|[k' v'] d IH]; simpl.
  - now rewrite str_eqb_refl.
  - destruct (str_eqb k k') eqn:E; simpl.
    + now rewrite str_eqb_refl.
    + now rewrite E.
Qed.

Lemma dict_get_set_other (k k' : pystr) (v : value) (d : dict) :
  k <> k' -> dict_get k (dict_set k' v d) = dict_get k d.
Proof.
  intros Hne. induction d as [|[k0 v0] d IH]; simpl.
  - apply str_eqb_neq in Hne. now rewrite Hne.
  - destruct (str_eqb k' k0) eqn:E; simpl.
    + apply str_eqb_eq in E. subst k0.
      apply str_eqb_neq in Hne. now rewrite Hne.
    + now rewrite IH.
Qed.

Lemma dict_get_set (k k' : pystr) (v : value) (d : dict) :
  dict_get k (dict_set k' v d) = if str_eqb k k' then Some v else dict_get k d.
Proof.
  destruct (str_eqb k k') eqn:E.
  - apply str_eqb_eq in E. subst. apply dict_get_set_same.
  - apply str_eqb_neq in E. now apply dict_get_set_other.
Qed.

(** Storing the value a key already has changes nothing. *)
Lemma dict_set_same_value (k : pystr) (v : value) (d : dict) :
  dict_get k d = Some v -> dict_set k v d = d.
Proof.
  induction d as [|[k' v'] d IH]; simpl; [discriminate|].
  destruct (str_eqb k k') eqn:E.
  - apply str_eqb_eq in E. now intros [= ->]; subst.
  - intros H. now rewrite IH.
Qed.

Lemma dict_contains_get (k : pystr) (d : dict) :
  dict_contains k d = true <-> exists v, dict_get k d = Some v.
Proof.
  unfold dict_contains. destruct (dict_get k d) as [v|]; split.
  - now exists v.
  - reflexivity.
  - discriminate.
  - now intros [v H].
Qed.

Lemma dict_contains_none (k : pystr) (d : dict) :
  dict_contains k d = false <-> dict_get k d = None.
Proof.
  unfold dict_contains. destruct (dict_get k d); split; congruence.
Qed.

End DictFacts.

(* ================================================================== *)
(** * Facts about the steps of the normaliser *)
(* ================================================================== *)

Module AppFacts.
Import Py Value App Spec PyFacts DictFacts.

(** ** Field completion *)

Lemma ensure_key_get (k key : pystr) (d : dict) :
  dict_get k (ensure_key d key) =
  match dict_get k d with
  | Some v => Some v
  | None => if str_eqb k key then Some (default_value key) else None
  end.
Proof.
  unfold ensure_key, default_value, dict_contains.
  destruct (dict_get key d) as [v|] eqn:Hkey; simpl.
  - destruct (dict_get k d) eqn:Hk; [reflexivity|].
    destruct (str_eqb k key) eqn:E; [|reflexivity].
    apply str_eqb_eq in E. congruence.
  - rewrite dict_get_set.
    destruct (str_eqb k key) eqn:E.
    + apply str_eqb_eq in E. subst k. rewrite Hkey.
      now destruct (str_eqb key meeting_summary).
    + now destruct (dict_get k d).
Qed.

Lemma ensure_keys_get (keys : list pystr) (k : pystr) (d : dict) :
  dict_get k (fold_left ensure_key keys d) =
  match dict_get k d with
  | Some v => Some v
  | None => if existsb (str_eqb k) keys then Some (default_value k) else None
  end.
Proof.
  revert d. induction keys as [|key keys IH]; intros d; simpl.
  - now destruct (dict_get k d).
  - rewrite IH, ensure_key_get.
    destruct (dict_get k d); [reflexivity|].
    destruct (str_eqb k key) eqn:E; [|reflexivity].
    apply str_eqb_eq in E. now subst.
Qed.

(** Completion leaves alone an object that has every required field. *)
Lemma ensure_keys_present (keys : list pystr) (d : dict) :
  (forall k, In k keys -> dict_contains k d = true) ->
  fold_left ensure_key keys d = d.
Proof.
  induction keys as [|key keys IH]; intros H; simpl; [reflexivity|].
  unfold ensure_key at 2. rewrite (H key) by now left.
  simpl. apply IH. intros k Hk. apply H. now right.
Qed.

(** ** The loop over the items of a field *)

Lemma count_without (sub s : pystr) (skip : nat) :
  contains sub s = false -> count_from sub skip s = 0%nat.
Proof.
  revert skip. induction s as [|c t IH]; intros skip H; [reflexivity|].
  simpl in H. apply orb_false_iff in H. destruct H as [Hs Ht].
  simpl. destruct skip; [|now apply IH].
  rewrite Hs. now apply IH.
Qed.

Lemma map_filter_pre {A B} (f : A -> B) (p : B -> bool) (l : list A) :
  List.map f (filter (fun a => p (f a)) l) = filter p (List.map f l).
Proof.
  induction l as [|a l IH]; simpl; [reflexivity|].
  destruct (p (f a)); simpl; now rewrite IH.
Qed.

Section Items.
Variable rt : runtime.

Lemma clean_item_spec (acc : list pystr) (item : value) :
  clean_item rt acc item =
  acc ++ match item with
         | VStr s => pieces s
         | _ => [str rt item]
         end.
Proof.
  destruct item; try reflexivity.
  unfold clean_item, pieces.
  destruct (contains delimiter s) eqn:Hc; simpl.
  - destruct (2 <? count s delimiter)%nat; [|reflexivity].
    f_equal. apply map_filter_pre.
  - unfold count. now rewrite count_without.
Qed.

(** The loop is the de-concatenation of the items, in their order. *)
Lemma clean_items_spec (items : list value) (acc : list pystr) :
  fold_left (clean_item rt) items acc = acc ++ deconcatenate rt items.
Proof.
  revert acc. induction items as [|item items IH]; intros acc; simpl.
  - now rewrite app_nil_r.
  - rewrite IH, clean_item_spec, <- app_assoc. reflexivity.
Qed.

Lemma split_key_get (d d' : dict) (key k : pystr) :
  split_key rt d key = Return d' ->
  dict_get k d' =
  option_map (fun field =>
                if str_eqb k key && truthy rt field then
                  match iterate field with
                  | Return items => VList (List.map VStr (deconcatenate rt items))
                  | Raise _ => field
                  end
                else field) (dict_get k d).
Proof.
  unfold split_key.
  destruct (dict_get key d) as [field|] eqn:Hkey.
  - destruct (truthy rt field) eqn:Ht.
    + destruct (iterate field) as [items|e] eqn:Hi; simpl; [|discriminate].
      intros [= <-]. rewrite dict_get_set.
      destruct (str_eqb k key) eqn:E.
      * apply str_eqb_eq in E. subst k. rewrite Hkey. simpl.
        rewrite Ht, Hi, clean_items_spec. reflexivity.
      * destruct (dict_get k d); reflexivity.
    + intros [= <-].
      destruct (str_eqb k key) eqn:E.
      * apply str_eqb_eq in E. subst k. rewrite Hkey. simpl. now rewrite Ht.
      * destruct (dict_get k d); reflexivity.
  - intros [= <-].
    destruct (str_eqb k key) eqn:E.
    + apply str_eqb_eq in E. subst k. now rewrite Hkey.
    + destruct (dict_get k d); reflexivity.
Qed.

(** The record that [complete] returns, field by field. *)
Lemma complete_get (d r : dict) (k : pystr) :
  complete rt d = Return r ->
  dict_get k r =
  option_map (rewritten rt k) (dict_get k (fold_left ensure_key required_keys d)).
Proof.
  unfold complete. set (d0 := fold_left ensure_key required_keys d).
  unfold item_keys. cbn [fold_left bind].
  destruct (split_key rt d0 key_decisions) as [d1|e] eqn:H1;
    cbn [bind]; [|discriminate].
  destruct (split_key rt d1 action_items) as [d2|e] eqn:H2;
    cbn [bind]; [|discriminate].
  intros H3.
  rewrite (split_key_get _ _ k H3), (split_key_get _ _ k H2),
    (split_key_get _ _ k H1).
  destruct (dict_get k d0) as [field|]; [|reflexivity].
  cbn [option_map]. f_equal. unfold rewritten, item_keys. cbn [existsb].
  destruct (str_eqb k key_decisions) eqn:E1;
    destruct (str_eqb k action_items) eqn:E2;
    destruct (str_eqb k discussion_points) eqn:E3;
    try (apply str_eqb_eq in E1); try (apply str_eqb_eq in E2);
    try (apply str_eqb_eq in E3); try (subst k; discriminate);
    cbn [andb orb];
    destruct (truthy rt field); try reflexivity;
    destruct (iterate field); reflexivity.
Qed.

End Items.

End AppFacts.

(* ================================================================== *)
(** * Facts about the decoder *)
(* ================================================================== *)

Module JsonFacts.
Import Py Value Json Invariants PyFacts.
Local Open Scope N_scope.

Lemma skip_ws_length (s : pystr) : (length (skip_ws s) <= length s)%nat.
Proof.
  induction s as [|c t IH]; cbn [skip_ws length]; [lia|].
  destruct (is_ws c); cbn [length]; lia.
Qed.

Lemma skip_ws_head (c : char) (t : pystr) :
  is_ws c = false -> skip_ws (c :: t) = c :: t.
Proof. cbn [skip_ws]. now intros ->. Qed.

Lemma after_spec (p s r : pystr) : after p s = Some r <-> s = p ++ r.
Proof.
  revert s. induction p as [|a p IH]; intros s; cbn [after app].
  - split; congruence.
  - destruct s as [|b s]; [split; discriminate|].
    destruct (N.eqb_spec a b) as [->|Hab].
    + rewrite IH. split; congruence.
    + split; [discriminate|congruence].
Qed.

(** ** Every scan makes progress *)

Lemma progresses_longer {A} (m : scan (A * pystr)) (s s' : pystr) :
  progresses m s -> (length s <= length s')%nat -> progresses m s'.
Proof.
  intros [Hx Hf] Hl. split; [assumption|].
  intros a r H. specialize (Hf a r H). lia.
Qed.

Lemma progresses_invalid {A} (s : pystr) : progresses (@Invalid (A * pystr)) s.
Proof. split; discriminate. Qed.

Lemma progresses_raised {A} (e : exn) (s : pystr) :
  progresses (@Raised (A * pystr) e) s.
Proof. split; discriminate. Qed.

Lemma progresses_found {A} (a : A) (r s : pystr) :
  (length r < length s)%nat -> progresses (Found (a, r)) s.
Proof. intros H. split; [discriminate|]. now intros ? ? [= <- <-]. Qed.

Lemma push_progresses (u : code_unit) (m : scan (list code_unit * pystr))
  (s : pystr) :
  progresses m s -> progresses (push u m) s.
Proof.
  intros [Hx Hf]. unfold push.
  destruct m as [[text r]| |e|]; cbn [and_then]; try congruence.
  - apply progresses_found. now apply (Hf text r).
  - apply progresses_invalid.
  - apply progresses_raised.
Qed.

Lemma scanstring_from_progresses (s : pystr) (skip : nat) :
  progresses (scanstring_from skip s) s.
Proof.
  revert skip. induction s as [|c t IH]; intros skip; cbn [scanstring_from].
  - apply progresses_invalid.
  - assert (Hrec : forall k x, progresses (push x (scanstring_from k t)) (c :: t)).
    { intros k x. apply push_progresses.
      apply progresses_longer with t; [apply IH|cbn [length]; lia]. }
    destruct skip as [|k].
    + destruct (c =? 34); [apply progresses_found; cbn [length]; lia|].
      destruct (c <? 32); [apply progresses_invalid|].
      destruct (c =? 92); [|apply Hrec].
      destruct (escape t) as [[ch k]|]; [apply Hrec|apply progresses_invalid].
    + apply progresses_longer with t; [apply IH|cbn [length]; lia].
Qed.

Lemma scanstring_progresses (s : pystr) : progresses (scanstring s) s.
Proof.
  unfold scanstring. destruct (scanstring_from_progresses s 0) as [Hx Hf].
  destruct (scanstring_from 0 s) as [[units r]| |e|]; cbn [and_then];
    [|apply progresses_invalid|apply progresses_raised|congruence].
  apply progresses_found. now apply (Hf units r).
Qed.

Lemma span_digits_app (s ds r : pystr) : span_digits s = (ds, r) -> s = ds ++ r.
Proof.
  revert ds r. induction s as [|c t IH]; intros ds r; cbn [span_digits].
  - now intros [= <- <-].
  - destruct (is_digit c).
    + destruct (span_digits t) as [ds' r']. intros [= <- <-].
      cbn [app]. f_equal. now apply IH.
    + now intros [= <- <-].
Qed.

Lemma match_integer_app (s i r : pystr) :
  match_integer s = Some (i, r) -> s = i ++ r /\ i <> [].
Proof.
  unfold match_integer.
  assert (Hbody : forall sign s1,
    match s1 with
    | [] => None
    | c :: t =>
        if c =? 48 then Some (sign ++ [c], t)
        else if is_digit c
             then let (ds, r) := span_digits t in Some (sign ++ c :: ds, r)
             else None
    end = Some (i, r) -> sign ++ s1 = i ++ r /\ i <> []).
  { intros sign [|c t]; [discriminate|].
    destruct (c =? 48).
    - intros [= <- <-]. rewrite <- app_assoc. split; [reflexivity|].
      now destruct sign.
    - destruct (is_digit c); [|discriminate].
      destruct (span_digits t) as [ds r'] eqn:Hs. intros [= <- <-].
      apply span_digits_app in Hs. subst t. rewrite <- app_assoc.
      split; [reflexivity|now destruct sign]. }
  destruct s as [|c t].
  - intros H. now apply (Hbody [] []) in H.
  - destruct (c =? 45).
    + intros H. now apply (Hbody [c] t) in H.
    + intros H. now apply (Hbody [] (c :: t)) in H.
Qed.

Lemma match_fraction_app (s f r : pystr) :
  match_fraction s = (f, r) -> s = f ++ r.
Proof.
  unfold match_fraction. destruct s as [|c t]; [now intros [= <- <-]|].
  destruct (c =? 46); [|now intros [= <- <-]].
  destruct (span_digits t) as [ds r'] eqn:Hs. apply span_digits_app in Hs.
  destruct ds; intros [= <- <-]; [reflexivity|]. now subst t.
Qed.

Lemma match_exponent_app (s e r : pystr) :
  match_exponent s = (e, r) -> s = e ++ r.
Proof.
  unfold match_exponent. destruct s as [|c t]; [now intros [= <- <-]|].
  destruct ((c =? 101) || (c =? 69)); [|now intros [= <- <-]].
  assert (Hsign : forall sign t1, t = sign ++ t1 ->
    match span_digits t1 with
    | ([], _) => ([], c :: t)
    | (ds, r) => (c :: sign ++ ds, r)
    end = (e, r) -> c :: t = e ++ r).
  { intros sign t1 -> H.
    destruct (span_digits t1) as [ds r'] eqn:Hs. apply span_digits_app in Hs.
    destruct ds; injection H as <- <-; [reflexivity|].
    subst t1. cbn [app]. now rewrite <- app_assoc. }
  destruct t as [|x t'].
  - apply (Hsign [] []). reflexivity.
  - destruct ((x =? 45) || (x =? 43)).
    + apply (Hsign [x] t'). reflexivity.
    + apply (Hsign [] (x :: t')). reflexivity.
Qed.

Lemma match_number_app (s : pystr) (v : value) (r : pystr) :
  match_number s = Some (v, r) -> exists text, s = text ++ r /\ text <> [].
Proof.
  unfold match_number.
  destruct (match_integer s) as [[i s1]|] eqn:Hi; [|discriminate].
  destruct (match_fraction s1) as [f s2] eqn:Hf.
  destruct (match_exponent s2) as [e s3] eqn:He.
  apply match_integer_app in Hi. destruct Hi as [-> Hne].
  apply match_fraction_app in Hf. apply match_exponent_app in He. subst.
  intros H. exists (i ++ f ++ e).
  assert (r = s3) as -> by (destruct f, e; now injection H).
  rewrite <- !app_assoc. split; [reflexivity|]. now destruct i.
Qed.

Lemma match_number_progresses (s : pystr) (found : value * pystr) :
  match_number s = Some found -> progresses (Found found) s.
Proof.
  destruct found as [v r]. intros H.
  apply match_number_app in H. destruct H as (text & -> & Hne).
  apply progresses_found. rewrite length_app.
  destruct text; [congruence|cbn [length]; lia].
Qed.

Lemma after_progresses {A} (p s r : pystr) (a : A) :
  after p s = Some r -> p <> [] -> progresses (Found (a, r)) s.
Proof.
  intros H Hne. apply after_spec in H. subst s. apply progresses_found.
  rewrite length_app. destruct p; [congruence|cbn [length]; lia].
Qed.

(** The lengths of the texts that [skip_ws] returned. *)
Ltac ws_lengths :=
  repeat match goal with
         | H : skip_ws ?x = _ |- _ =>
             let L := fresh "L" in
             pose proof (skip_ws_length x) as L; rewrite H in L; revert H
         end;
  intros; cbn [length] in *.

Section Containers.
Variable scan_value : pystr -> scan (value * pystr).
Variable bound : nat.
Hypothesis scan_value_progresses :
  forall s, (length s < bound)%nat -> progresses (scan_value s) s.

Lemma object_members_progresses (n : nat) (s : pystr)
  (pairs : list (pystr * value)) :
  (length s < n)%nat -> (length s < bound)%nat ->
  progresses (object_members scan_value n s pairs) s.
Proof.
  revert s pairs. induction n as [|n IH]; intros s pairs Hn Hb; [lia|].
  cbn [object_members].
  destruct (scanstring_progresses s) as [Hx Hf].
  destruct (scanstring s) as [[key s1]| |e|]; cbn [and_then];
    [|apply progresses_invalid|apply progresses_raised|congruence].
  specialize (Hf key s1 eq_refl).
  destruct (skip_ws s1) as [|c s2] eqn:W1; [apply progresses_invalid|].
  destruct (negb (c =? 58)); [apply progresses_invalid|].
  pose proof (skip_ws_length s2) as L2. ws_lengths.
  destruct (scan_value_progresses (skip_ws s2)) as [Hx2 Hf2]; [lia|].
  destruct (scan_value (skip_ws s2)) as [[v s3]| |e|]; cbn [and_then];
    [|apply progresses_invalid|apply progresses_raised|congruence].
  specialize (Hf2 v s3 eq_refl).
  destruct (skip_ws s3) as [|d s4] eqn:W3; [apply progresses_invalid|].
  ws_lengths.
  destruct (d =? 125); [apply progresses_found; lia|].
  destruct (negb (d =? 44)); [apply progresses_invalid|].
  destruct (skip_ws s4) as [|q s5] eqn:W4; [apply progresses_invalid|].
  ws_lengths.
  destruct (q =? 34); [|apply progresses_invalid].
  apply progresses_longer with s5; [apply IH; lia|lia].
Qed.

Lemma array_items_progresses (n : nat) (s : pystr) (values : list value) :
  (length s < n)%nat -> (length s < bound)%nat ->
  progresses (array_items scan_value n s values) s.
Proof.
  revert s values. induction n as [|n IH]; intros s values Hn Hb; [lia|].
  cbn [array_items].
  destruct (scan_value_progresses s) as [Hx Hf]; [lia|].
  destruct (scan_value s) as [[v s1]| |e|]; cbn [and_then];
    [|apply progresses_invalid|apply progresses_raised|congruence].
  specialize (Hf v s1 eq_refl).
  destruct (skip_ws s1) as [|d s2] eqn:W1; [apply progresses_invalid|].
  pose proof (skip_ws_length s2) as L2. ws_lengths.
  destruct (d =? 93); [apply progresses_found; lia|].
  destruct (negb (d =? 44)); [apply progresses_invalid|].
  apply progresses_longer with (skip_ws s2); [apply IH; lia|lia].
Qed.

End Containers.

Lemma scan_once_progresses (rt : runtime) (fuel depth : nat) (s : pystr) :
  (length s < fuel)%nat -> progresses (scan_once rt fuel depth s) s.
Proof.
  revert depth s. induction fuel as [|fuel IH]; intros depth s Hs; [lia|].
  destruct s as [|c t]; [apply progresses_invalid|].
  cbn [length] in Hs. cbn [scan_once].
  destruct (c =? 34).
  { destruct (scanstring_progresses t) as [Hx Hf].
    destruct (scanstring t) as [[text r]| |e|]; cbn [and_then];
      [|apply progresses_invalid|apply progresses_raised|congruence].
    specialize (Hf text r eq_refl).
    apply progresses_found. cbn [length]. lia. }
  destruct (c =? 123).
  { destruct depth as [|depth]; [apply progresses_raised|].
    unfold JSONObject.
    destruct (skip_ws t) as [|c' t'] eqn:W; [apply progresses_invalid|].
    ws_lengths.
    destruct (c' =? 125); [apply progresses_found; cbn [length]; lia|].
    destruct (c' =? 34); [|apply progresses_invalid].
    apply progresses_longer with t'; [|cbn [length]; lia].
    apply object_members_progresses with fuel; [apply IH|lia|lia]. }
  destruct (c =? 91).
  { destruct depth as [|depth]; [apply progresses_raised|].
    unfold JSONArray.
    destruct (skip_ws t) as [|c' t'] eqn:W; [apply progresses_invalid|].
    ws_lengths.
    destruct (c' =? 93); [apply progresses_found; cbn [length]; lia|].
    apply progresses_longer with (c' :: t'); [|cbn [length]; lia].
    apply array_items_progresses with fuel; [apply IH|cbn [length]; lia..]. }
  destruct (after (lit "null") (c :: t)) eqn:A1;
    [eapply after_progresses; [eassumption|discriminate]|].
  destruct (after (lit "true") (c :: t)) eqn:A2;
    [eapply after_progresses; [eassumption|discriminate]|].
  destruct (after (lit "false") (c :: t)) eqn:A3;
    [eapply after_progresses; [eassumption|discriminate]|].
  destruct (match_number (c :: t)) as [[v r]|] eqn:M.
  { apply match_number_progresses in M. unfold number_result.
    destruct v; try exact M. cbn [fst].
    destruct (int_refused rt (int_digits (c :: t)));
      [apply progresses_raised|exact M]. }
  destruct (after (lit "NaN") (c :: t)) eqn:A4;
    [eapply after_progresses; [eassumption|discriminate]|].
  destruct (after (lit "Infinity") (c :: t)) eqn:A5;
    [eapply after_progresses; [eassumption|discriminate]|].
  destruct (after (lit "-Infinity") (c :: t)) eqn:A6;
    [eapply after_progresses; [eassumption|discriminate]|].
  apply progresses_invalid.
Qed.

(** The decoder always comes to an end: the fuel [loads] passes is enough
    for every text. *)
Lemma loads_terminates (rt : runtime) (s : pystr) : loads rt s <> Exhausted.
Proof.
  unfold loads. destruct (startswith s [65279]); [discriminate|].
  pose proof (skip_ws_length s) as L.
  destruct (@scan_once_progresses rt (S (length s))
              (Pos.to_nat (max_nesting rt)) (skip_ws s)) as [Hx _]; [lia|].
  destruct (scan_once rt (S (length s)) (Pos.to_nat (max_nesting rt))
              (skip_ws s)) as [[v rest]| |e|];
    cbn [and_then]; [|discriminate|discriminate|congruence].
  destruct (skip_ws rest); discriminate.
Qed.

(** ** A text that opens with a brace decodes to a dict *)

Lemma object_members_dict scan_value (n : nat) (s : pystr)
  (pairs : list (pystr * value)) (v : value) (r : pystr) :
  object_members scan_value n s pairs = Found (v, r) -> exists d, v = VDict d.
Proof.
  revert s pairs. induction n as [|n IH]; intros s pairs; [discriminate|].
  cbn [object_members].
  destruct (scanstring s) as [[key s1]| |e|]; cbn [and_then]; try discriminate.
  destruct (skip_ws s1) as [|c s2]; [discriminate|].
  destruct (negb (c =? 58)); [discriminate|].
  destruct (scan_value (skip_ws s2)) as [[x s3]| |e|]; cbn [and_then];
    try discriminate.
  destruct (skip_ws s3) as [|d s4]; [discriminate|].
  destruct (d =? 125); [intros [= <- <-]; eauto|].
  destruct (negb (d =? 44)); [discriminate|].
  destruct (skip_ws s4) as [|q s5]; [discriminate|].
  destruct (q =? 34); [apply IH|discriminate].
Qed.

Lemma loads_brace_dict (rt : runtime) (t : pystr) (v : value) :
  loads rt (123 :: t) = Found v -> exists d, v = VDict d.
Proof.
  unfold loads. change (startswith (123 :: t) [65279]) with false.
  change (skip_ws (123 :: t)) with (123 :: t). cbv iota.
  cbn [scan_once]. change (123 =? 34) with false. change (123 =? 123) with true.
  cbv iota.
  destruct (Pos.to_nat (max_nesting rt)) as [|depth]; [discriminate|].
  unfold JSONObject.
  destruct (skip_ws t) as [|c t']; [discriminate|].
  destruct (c =? 125).
  { cbn [and_then]. destruct (skip_ws t'); [|discriminate].
    intros [= <-]. eauto. }
  destruct (c =? 34); [|discriminate].
  destruct (object_members _ _ t' []) as [[x rest]| |e|] eqn:H;
    cbn [and_then]; try discriminate.
  apply object_members_dict in H.
  destruct (skip_ws rest); [|discriminate]. now intros [= <-].
Qed.

End JsonFacts.

(* ================================================================== *)
(** * Facts about the search for the brace span *)
(* ================================================================== *)

Module ReFacts.
Import Py Re Spec.
Local Open Scope N_scope.

Lemma upto_last_brace_none (s : pystr) :
  free_of 125 s -> upto_last_brace s = None.
Proof.
  unfold free_of. induction s as [|c t IH]; cbn [existsb upto_last_brace];
    [reflexivity|].
  intros H. apply orb_false_iff in H. destruct H as [Hc H].
  rewrite IH by assumption. now rewrite N.eqb_sym, Hc.
Qed.

(** The greedy match runs to the last closing brace of the text. *)
Lemma upto_last_brace_app (mid post : pystr) :
  free_of 125 post -> upto_last_brace (mid ++ 125 :: post) = Some (mid ++ [125]).
Proof.
  intros H. induction mid as [|c t IH]; cbn [app upto_last_brace].
  - now rewrite upto_last_brace_none.
  - now rewrite IH.
Qed.

(** The span the search returns: from the first opening brace to the last
    closing brace. *)
Lemma search_span (pre mid post : pystr) :
  free_of 123 pre -> free_of 125 post ->
  search (pre ++ 123 :: mid ++ 125 :: post) = Some (123 :: mid ++ [125]).
Proof.
  intros Hpre Hpost. unfold free_of in Hpre.
  induction pre as [|c t IH]; cbn [app search].
  - rewrite N.eqb_refl. now rewrite upto_last_brace_app.
  - cbn [existsb] in Hpre. apply orb_false_iff in Hpre.
    destruct Hpre as [Hc Hpre]. rewrite N.eqb_sym, Hc. now apply IH.
Qed.

Lemma search_head (s m : pystr) : search s = Some m -> exists t, m = 123 :: t.
Proof.
  induction s as [|c t IH]; cbn [search]; [discriminate|].
  destruct (N.eqb_spec c 123) as [->|Hc]; [|assumption].
  destruct (upto_last_brace t) as [m'|]; [|assumption].
  intros [= <-]. eauto.
Qed.

Lemma search_none (s : pystr) : free_of 123 s -> search s = None.
Proof.
  unfold free_of. induction s as [|c t IH]; cbn [existsb search];
    [reflexivity|].
  intros H. apply orb_false_iff in H. destruct H as [Hc H].
  rewrite N.eqb_sym, Hc. now apply IH.
Qed.

End ReFacts.

(* ================================================================== *)
(** * The normaliser as a whole *)
(* ================================================================== *)

Module NormaliserFacts.
Import Py Value App Spec PyFacts DictFacts AppFacts JsonFacts ReFacts.
Local Open Scope N_scope.

(** The ways out of [extract_json_from_response]: the completed object
    when one was decoded; otherwise the exception of the decoder when it
    raised one, and the fallback record after the two [print] calls when
    there is a span that the decoder refused, and the fallback record at
    once when there is no span. *)
Lemma extract_spec (rt : runtime) (response_text : pystr) :
  extract_json_from_response rt response_text =
  match parsed_object rt response_text with
  | Some parsed => complete rt parsed
  | None =>
      match Re.search (cleaned_text response_text) with
      | Some span =>
          match Json.loads rt span with
          | Json.Raised e => Raise e
          | _ => bind (report_decode_error rt span) (fun _ =>
                   Return (fallback response_text))
          end
      | None => Return (fallback response_text)
      end
  end.
Proof.
  unfold extract_json_from_response, parsed_object.
  destruct (Re.search (cleaned_text response_text)) as [m|] eqn:Hs;
    [|reflexivity].
  destruct (search_head _ Hs) as [t ->].
  pose proof (loads_terminates rt (123 :: t)) as Hterm.
  destruct (Json.loads rt (123 :: t)) as [v| |e|] eqn:Hl;
    [|reflexivity|reflexivity|congruence].
  destruct (loads_brace_dict _ _ Hl) as [d ->]. reflexivity.
Qed.

Lemma extract_decoded (rt : runtime) (response_text : pystr) (d : dict) :
  parsed_object rt response_text = Some d ->
  extract_json_from_response rt response_text = complete rt d.
Proof. intros H. now rewrite extract_spec, H. Qed.

(** Without a decoded object, the normaliser returns nothing else than
    the fallback record. *)
Lemma extract_undecoded (rt : runtime) (response_text : pystr) (r : dict) :
  parsed_object rt response_text = None ->
  extract_json_from_response rt response_text = Return r ->
  r = fallback response_text.
Proof.
  intros H. rewrite extract_spec, H.
  destruct (Re.search (cleaned_text response_text)) as [span|];
    [|now intros [= <-]].
  assert (Hb : bind (report_decode_error rt span)
                 (fun _ => Return (fallback response_text)) = Return r ->
               r = fallback response_text).
  { destruct (report_decode_error rt span) as [[]|e]; cbn [bind];
      [now intros [= <-]|discriminate]. }
  destruct (Json.loads rt span); try exact Hb. discriminate.
Qed.

Lemma not_in_item_keys (k : pystr) :
  ~ In k item_keys -> existsb (str_eqb k) item_keys = false.
Proof.
  intros H. apply not_true_is_false. intros E.
  apply existsb_exists in E. destruct E as (key & Hin & E).
  apply str_eqb_eq in E. now subst.
Qed.

Lemma in_keys (k : pystr) (keys : list pystr) :
  In k keys -> existsb (str_eqb k) keys = true.
Proof.
  intros H. apply existsb_exists. exists k. split; [assumption|].
  apply str_eqb_refl.
Qed.

(** A field of the returned record, from the decoded object. *)
Lemma extract_get (rt : runtime) (response_text : pystr) (d r : dict)
  (k : pystr) :
  parsed_object rt response_text = Some d ->
  extract_json_from_response rt response_text = Return r ->
  dict_get k r =
  match dict_get k d with
  | Some field => Some (rewritten rt k field)
  | None => if existsb (str_eqb k) required_keys
            then Some (default_value k) else None
  end.
Proof.
  intros Hp. rewrite extract_spec, Hp. intros Hc.
  rewrite (complete_get _ _ k Hc), ensure_keys_get.
  destruct (dict_get k d) as [field|]; [reflexivity|].
  destruct (existsb (str_eqb k) required_keys) eqn:E; [|reflexivity].
  cbn [option_map]. f_equal.
  apply existsb_exists in E. destruct E as (key & Hin & E).
  apply str_eqb_eq in E. subst key.
  unfold required_keys in Hin. cbn [In] in Hin.
  destruct Hin as [<-|[<-|[<-|[<-|[<-|[]]]]]]; reflexivity.
Qed.

End NormaliserFacts.

(* ================================================================== *)
(** * The decoder reads no further than the value it finds *)
(* ================================================================== *)

Module JsonLocality.
Import Py Value Json Invariants PyFacts JsonFacts.
Local Open Scope N_scope.

(** ** White space *)

Lemma skip_ws_split (s : pystr) :
  exists w, s = w ++ skip_ws s /\ forallb is_ws w = true.
Proof.
  induction s as [|c t (w & Hw & Hall)]; [now exists []|].
  cbn [skip_ws]. destruct (is_ws c) eqn:E.
  - exists (c :: w). cbn [app forallb]. rewrite E, Hall. split; [|reflexivity].
    now f_equal.
  - now exists [].
Qed.

Lemma skip_ws_app (w y : pystr) :
  forallb is_ws w = true -> skip_ws (w ++ y) = skip_ws y.
Proof.
  induction w as [|c t IH]; [reflexivity|]. cbn [forallb app skip_ws].
  intros H. apply andb_true_iff in H. destruct H as [-> H]. now apply IH.
Qed.

Lemma skip_ws_nonws (s : pystr) (c : char) (t : pystr) :
  skip_ws s = c :: t -> is_ws c = false.
Proof.
  induction s as [|a s IH]; cbn [skip_ws]; [discriminate|].
  destruct (is_ws a) eqn:E; [assumption|]. now intros [= <- <-].
Qed.

Lemma skip_ws_blank (s : pystr) : skip_ws s = [] -> forallb is_ws s = true.
Proof.
  induction s as [|c t IH]; [reflexivity|]. cbn [skip_ws forallb].
  destruct (is_ws c); [assumption|discriminate].
Qed.

(** What [skip_ws] returns starts with the character that ended the white
    space, on this text and on every other that goes on from there. *)
Lemma skip_ws_expect (s : pystr) (c : char) (t : pystr) :
  skip_ws s = c :: t ->
  exists w, s = w ++ c :: t /\ forallb is_ws w = true /\
            forall y, skip_ws (w ++ c :: y) = c :: y.
Proof.
  intros H. destruct (skip_ws_split s) as (w & Hs & Hw).
  exists w. rewrite H in Hs. split; [assumption|]. split; [assumption|].
  intros y. rewrite skip_ws_app by assumption.
  apply skip_ws_head. now apply skip_ws_nonws in H.
Qed.

Lemma is_ws_isspace (c : char) : is_ws c = true -> isspace c = true.
Proof.
  unfold is_ws. intros H.
  repeat (apply orb_true_iff in H; destruct H as [H|H]);
    apply N.eqb_eq in H; subst; reflexivity.
Qed.

Lemma blank_of_ws (w : pystr) : forallb is_ws w = true -> forallb isspace w = true.
Proof.
  induction w as [|c t IH]; [reflexivity|]. cbn [forallb].
  intros H. apply andb_true_iff in H. destruct H as [Hc H].
  now rewrite (is_ws_isspace _ Hc), IH.
Qed.

Lemma stop_not_ws_head (w : pystr) (c : char) (y : pystr) :
  forallb is_ws w = true -> stop c = true -> stops (w ++ c :: y).
Proof.
  destruct w as [|a w]; cbn [app stops forallb]; [now intros _|].
  intros H _. apply andb_true_iff in H. destruct H as [Ha _].
  unfold stop. now rewrite Ha.
Qed.

(** ** Strings *)

Lemma escape_firstn (t t' : pystr) (u : code_unit) (k : nat) :
  escape t = Some (u, k) -> firstn k t' = firstn k t -> escape t' = Some (u, k).
Proof.
  unfold escape. destruct t as [|e t1]; [discriminate|].
  destruct (negb (e =? 117)) eqn:E.
  - destruct (backslash e) as [ch|] eqn:B; [|discriminate].
    intros [= <- <-]. destruct t' as [|e' t1']; [discriminate|].
    cbn [firstn]. intros [= ->]. now rewrite E, B.
  - destruct t1 as [|h1 [|h2 [|h3 [|h4 t2]]]]; try discriminate.
    destruct (decode_uXXXX h1 h2 h3 h4) as [uni|] eqn:D; [|discriminate].
    intros [= <- <-].
    destruct t' as [|e' [|g1 [|g2 [|g3 [|g4 t2']]]]]; try discriminate.
    cbn [firstn]. intros [= -> -> -> -> ->]. now rewrite E, D.
Qed.

Lemma scanstring_from_consumes (s : pystr) (skip : nat)
  (units : list code_unit) (r : pystr) :
  scanstring_from skip s = Found (units, r) ->
  (skip + length r < length s)%nat.
Proof.
  revert skip units. induction s as [|c t IH]; intros skip units;
    cbn [scanstring_from]; [discriminate|].
  destruct skip as [|k].
  - intros H. destruct (scanstring_from_progresses (c :: t) 0) as [_ Hf].
    cbn [scanstring_from] in Hf. specialize (Hf _ _ H). cbn [length] in *. lia.
  - intros H. apply IH in H. cbn [length]. lia.
Qed.

Lemma push_found (u : code_unit) (m : scan (list code_unit * pystr))
  (units : list code_unit) (r : pystr) :
  push u m = Found (units, r) ->
  exists units', m = Found (units', r) /\ units = u :: units'.
Proof.
  unfold push. destruct m as [[units' r']| |e|]; cbn [and_then];
    try discriminate.
  intros [= <- <-]. eauto.
Qed.

Lemma scanstring_from_local (s : pystr) (skip : nat)
  (units : list code_unit) (r : pystr) :
  scanstring_from skip s = Found (units, r) ->
  exists pre, s = pre ++ r /\
              forall y, scanstring_from skip (pre ++ y) = Found (units, y).
Proof.
  revert skip units. induction s as [|c t IH]; intros skip units;
    cbn [scanstring_from]; [discriminate|].
  destruct skip as [|k].
  - destruct (c =? 34) eqn:Q.
    { intros [= <- <-]. exists [c]. split; [reflexivity|].
      intros y. cbn [app scanstring_from]. now rewrite Q. }
    destruct (c <? 32) eqn:L; [discriminate|].
    destruct (c =? 92) eqn:B.
    + destruct (escape t) as [[u k]|] eqn:E; [|discriminate].
      intros H. apply push_found in H. destruct H as (units' & H & ->).
      destruct (IH _ _ H) as (pre & Ht & Hloc).
      exists (c :: pre). split; [cbn [app]; now f_equal|].
      intros y. cbn [app scanstring_from]. rewrite Q, L, B.
      assert (Hk : (k < length pre)%nat).
      { pose proof (scanstring_from_consumes _ _ (Hloc [])) as Hc.
        rewrite app_nil_r in Hc. cbn [length] in Hc. lia. }
      rewrite (@escape_firstn t (pre ++ y) u k E).
      * now rewrite Hloc.
      * rewrite Ht, !firstn_app.
        replace (k - length pre)%nat with 0%nat by lia. reflexivity.
    + intros H. apply push_found in H. destruct H as (units' & H & ->).
      destruct (IH _ _ H) as (pre & Ht & Hloc).
      exists (c :: pre). split; [cbn [app]; now f_equal|].
      intros y. cbn [app scanstring_from]. rewrite Q, L, B. now rewrite Hloc.
  - intros H. destruct (IH _ _ H) as (pre & Ht & Hloc).
    exists (c :: pre). split; [cbn [app]; now f_equal|].
    intros y. cbn [app scanstring_from]. apply Hloc.
Qed.

Lemma scanstring_local (s text r : pystr) :
  scanstring s = Found (text, r) ->
  exists pre, s = pre ++ r /\ pre <> [] /\
              forall y, scanstring (pre ++ y) = Found (text, y).
Proof.
  unfold scanstring.
  destruct (scanstring_from 0 s) as [[units r0]| |e|] eqn:H; cbn [and_then];
    try discriminate.
  intros [= <- <-].
  destruct (scanstring_from_local _ _ H) as (pre & Hs & Hloc).
  exists pre. split; [assumption|]. split.
  - intros ->. apply scanstring_from_consumes in H.
    rewrite Hs in H. cbn [app] in H. lia.
  - intros y. now rewrite Hloc.
Qed.

(** ** Numbers *)

Lemma span_digits_spec (s ds r : pystr) :
  span_digits s = (ds, r) ->
  s = ds ++ r /\ forallb is_digit ds = true /\ opens_without is_digit r.
Proof.
  revert ds r. induction s as [|c t IH]; intros ds r; cbn [span_digits].
  - intros [= <- <-]. now repeat split.
  - destruct (is_digit c) eqn:E.
    + destruct (span_digits t) as [ds' r'] eqn:H. intros [= <- <-].
      destruct (IH _ _ eq_refl) as (-> & Hd & Hr).
      cbn [app forallb]. rewrite E, Hd. now repeat split.
    + intros [= <- <-]. now repeat split.
Qed.

Lemma span_digits_stop (ds y : pystr) :
  forallb is_digit ds = true -> opens_without is_digit y ->
  span_digits (ds ++ y) = (ds, y).
Proof.
  intros Hd Hy. induction ds as [|c t IH]; cbn [app].
  - destruct y as [|c y]; [reflexivity|]. cbn [span_digits].
    cbn [opens_without] in Hy. now rewrite Hy.
  - cbn [forallb] in Hd. apply andb_true_iff in Hd. destruct Hd as [Hc Hd].
    cbn [span_digits]. now rewrite Hc, IH.
Qed.

Lemma digit_not_minus (c : char) : is_digit c = true -> (c =? 45) = false.
Proof.
  unfold is_digit. intros H. apply andb_true_iff in H. destruct H as [H _].
  apply N.leb_le in H. apply N.eqb_neq. lia.
Qed.

Lemma digit_not_sign (c : char) :
  is_digit c = true -> (c =? 45) || (c =? 43) = false.
Proof.
  unfold is_digit. intros H. apply andb_true_iff in H. destruct H as [H _].
  apply N.leb_le in H. apply orb_false_iff. split; apply N.eqb_neq; lia.
Qed.

Lemma match_integer_local (s i s1 : pystr) :
  match_integer s = Some (i, s1) ->
  (exists c0 t0, i = c0 :: t0 /\ (c0 = 45 \/ is_digit c0 = true)) /\
  forall y, opens_without is_digit y -> match_integer (i ++ y) = Some (i, y).
Proof.
  assert (Hbody : forall sign c t,
    (if c =? 48 then Some (sign ++ [c], t)
     else if is_digit c
          then let (ds, r) := span_digits t in Some (sign ++ c :: ds, r)
          else None) = Some (i, s1) ->
    exists t0, i = sign ++ c :: t0 /\ is_digit c = true /\
      forall y, opens_without is_digit y ->
        (if c =? 48 then Some (sign ++ [c], t0 ++ y)
         else if is_digit c
              then let (ds, r) := span_digits (t0 ++ y) in
                   Some (sign ++ c :: ds, r)
              else None) = Some (i, y)).
  { intros sign c t. destruct (c =? 48) eqn:Z.
    - intros [= <- <-]. exists []. apply N.eqb_eq in Z. subst c.
      now repeat split.
    - destruct (is_digit c) eqn:D; [|discriminate].
      destruct (span_digits t) as [ds r] eqn:H. intros [= <- <-].
      apply span_digits_spec in H. destruct H as (_ & Hd & _).
      exists ds. repeat split. intros y Hy.
      now rewrite span_digits_stop. }
  unfold match_integer. destruct s as [|c t]; [discriminate|].
  destruct (c =? 45) eqn:M.
  - destruct t as [|c1 t1]; [discriminate|]. intros H.
    destruct (Hbody [c] c1 t1 H) as (t0 & -> & Hd & Hloc). split.
    + exists c. eexists. split; [reflexivity|]. left. now apply N.eqb_eq.
    + intros y Hy. cbn [app]. rewrite M. apply (Hloc y Hy).
  - intros H.
    destruct (Hbody [] c t H) as (t0 & -> & Hd & Hloc). split.
    + exists c. eexists. split; [reflexivity|]. now right.
    + intros y Hy. cbn [app]. rewrite M. apply (Hloc y Hy).
Qed.

Lemma match_fraction_none (y : pystr) :
  opens_without (N.eqb 46) y -> match_fraction y = ([], y).
Proof.
  unfold match_fraction. destruct y as [|c y]; [reflexivity|].
  cbn [opens_without]. intros H. now rewrite N.eqb_sym, H.
Qed.

Lemma match_fraction_local (s f s2 : pystr) :
  match_fraction s = (f, s2) ->
  opens_without is_digit f /\
  forall y, opens_without is_digit y ->
            (f = [] -> opens_without (N.eqb 46) y) ->
            match_fraction (f ++ y) = (f, y).
Proof.
  intros H.
  assert (Hcases : f = [] \/
            exists ds, f = 46 :: ds /\ ds <> [] /\ forallb is_digit ds = true).
  { unfold match_fraction in H. destruct s as [|c t]; [left; congruence|].
    destruct (N.eqb_spec c 46) as [->|_]; [|left; congruence].
    destruct (span_digits t) as [ds r] eqn:Hs.
    apply span_digits_spec in Hs. destruct Hs as (_ & Hd & _).
    destruct ds as [|d ds]; [left; congruence|].
    right. exists (d :: ds). injection H as <- _. now repeat split. }
  destruct Hcases as [->|(ds & -> & Hne & Hd)].
  - split; [exact I|]. intros y _ Hy. now apply match_fraction_none, Hy.
  - split; [reflexivity|]. intros y Hy _.
    unfold match_fraction. cbn [app]. rewrite N.eqb_refl.
    rewrite span_digits_stop by assumption.
    destruct ds; [congruence|reflexivity].
Qed.

Lemma match_exponent_none (y : pystr) :
  opens_without (fun c => (c =? 101) || (c =? 69)) y ->
  match_exponent y = ([], y).
Proof.
  unfold match_exponent. destruct y as [|c y]; [reflexivity|].
  cbn [opens_without]. now intros ->.
Qed.

Lemma match_exponent_local (s e r : pystr) :
  match_exponent s = (e, r) ->
  opens_without is_digit e /\
  opens_without (N.eqb 46) e /\
  forall y, opens_without is_digit y ->
            (e = [] -> opens_without (fun c => (c =? 101) || (c =? 69)) y) ->
            match_exponent (e ++ y) = (e, y).
Proof.
  intros H.
  assert (Hcases : e = [] \/
            exists c sign ds,
              e = c :: sign ++ ds /\ (c =? 101) || (c =? 69) = true /\
              ds <> [] /\ forallb is_digit ds = true /\
              (sign = [] \/ exists x, sign = [x] /\ (x =? 45) || (x =? 43) = true)).
  { unfold match_exponent in H. destruct s as [|c t]; [left; congruence|].
    destruct ((c =? 101) || (c =? 69)) eqn:E; [|left; congruence].
    assert (Hsign : forall sign t1,
      (sign = [] \/ exists x, sign = [x] /\ (x =? 45) || (x =? 43) = true) ->
      match span_digits t1 with
      | ([], _) => ([], c :: t)
      | (ds, r) => (c :: sign ++ ds, r)
      end = (e, r) ->
      e = [] \/ exists c sign ds,
              e = c :: sign ++ ds /\ (c =? 101) || (c =? 69) = true /\
              ds <> [] /\ forallb is_digit ds = true /\
              (sign = [] \/ exists x, sign = [x] /\ (x =? 45) || (x =? 43) = true)).
    { intros sign t1 Hsg H1. destruct (span_digits t1) as [ds r1] eqn:Hs.
      apply span_digits_spec in Hs. destruct Hs as (_ & Hd & _).
      destruct ds as [|d ds]; [left; congruence|].
      right. exists c, sign, (d :: ds). injection H1 as <- _.
      now repeat split. }
    destruct t as [|x t'].
    - apply (Hsign [] []); [now left|exact H].
    - destruct ((x =? 45) || (x =? 43)) eqn:X.
      + apply (Hsign [x] t'); [right; eauto|exact H].
      + apply (Hsign [] (x :: t')); [now left|exact H]. }
  destruct Hcases as [->|(c & sign & ds & -> & Hc & Hne & Hd & Hsg)].
  - repeat split. intros y _ Hy. now apply match_exponent_none, Hy.
  - split; [|split].
    + cbn [opens_without]. unfold is_digit.
      apply orb_true_iff in Hc. destruct Hc as [Hc|Hc];
        apply N.eqb_eq in Hc; now subst c.
    + cbn [opens_without]. rewrite N.eqb_sym.
      apply orb_true_iff in Hc. destruct Hc as [Hc|Hc];
        apply N.eqb_eq in Hc; now subst c.
    + intros y Hy _. unfold match_exponent. cbn [app]. rewrite Hc.
      destruct ds as [|d ds]; [congruence|].
      cbn [forallb] in Hd. apply andb_true_iff in Hd. destruct Hd as [Hd0 Hd].
      destruct Hsg as [->|(x & -> & Hx)]; cbn [app].
      * rewrite (digit_not_sign _ Hd0).
        change (d :: ds ++ y) with ((d :: ds) ++ y).
        rewrite span_digits_stop; [reflexivity| |assumption].
        cbn [forallb]. now rewrite Hd0.
      * rewrite Hx. change (d :: ds ++ y) with ((d :: ds) ++ y).
        rewrite span_digits_stop; [reflexivity| |assumption].
        cbn [forallb]. now rewrite Hd0.
Qed.

Lemma opens_without_app (p : char -> bool) (a b : pystr) :
  opens_without p a -> (a = [] -> opens_without p b) ->
  opens_without p (a ++ b).
Proof. destruct a; cbn [app opens_without]; auto. Qed.

Lemma stops_opens (y : pystr) :
  stops y ->
  opens_without is_digit y /\ opens_without (N.eqb 46) y /\
  opens_without (fun c => (c =? 101) || (c =? 69)) y.
Proof.
  destruct y as [|c y]; cbn [stops opens_without]; [contradiction|].
  unfold stop, is_ws. intros H.
  repeat (apply orb_true_iff in H; destruct H as [H|H]);
    apply N.eqb_eq in H; subst c; repeat split.
Qed.

Lemma match_number_local (s : pystr) (v : value) (r : pystr) :
  match_number s = Some (v, r) ->
  exists text,
    s = text ++ r /\
    (exists c0 t0, text = c0 :: t0 /\ (c0 = 45 \/ is_digit c0 = true)) /\
    forall y, stops y ->
              match_number (text ++ y) = Some (v, y) /\
              int_digits (text ++ y) = int_digits s.
Proof.
  intros H. unfold match_number in H.
  destruct (match_integer s) as [[i s1]|] eqn:Hi; [|discriminate].
  destruct (match_fraction s1) as [f s2] eqn:Hf.
  destruct (match_exponent s2) as [e s3] eqn:He.
  destruct (@match_integer_app _ _ _ Hi) as [-> _].
  apply match_fraction_app in Hf as Hf'. apply match_exponent_app in He as He'.
  subst s1 s2.
  destruct (@match_integer_local _ _ _ Hi) as ((c0 & t0 & -> & Hc0) & Hiloc).
  destruct (@match_fraction_local _ _ _ Hf) as (Hfd & Hfloc).
  destruct (@match_exponent_local _ _ _ He) as (Hed & Hep & Heloc).
  assert (Hr : r = s3) by (destruct f, e; now injection H).
  subst s3.
  exists ((c0 :: t0) ++ f ++ e). split; [now rewrite <- !app_assoc|].
  split; [exists c0, (t0 ++ f ++ e); split; [reflexivity|assumption]|].
  intros y Hy. destruct (@stops_opens _ Hy) as (Yd & Yp & Ye).
  rewrite <- !app_assoc.
  assert (Hi' : match_integer ((c0 :: t0) ++ f ++ e ++ y)
                = Some (c0 :: t0, f ++ e ++ y)).
  { apply Hiloc. apply opens_without_app; [assumption|]. intros _.
    apply opens_without_app; [assumption|now intros _]. }
  split; [|unfold int_digits; now rewrite Hi', Hi].
  unfold match_number.
  rewrite Hi'.
  rewrite Hfloc.
  2:{ apply opens_without_app; [assumption|now intros _]. }
  2:{ intros _. apply opens_without_app; [assumption|now intros _]. }
  rewrite Heloc by (try assumption; now intros _).
  destruct f, e; injection H as <-; reflexivity.
Qed.

(** ** Containers *)

Ltac norm_app := repeat first [rewrite <- app_assoc | progress cbn [app]].
Ltac lengths :=
  repeat first [rewrite length_app in * | progress cbn [length] in *]; lia.

Lemma skip_ws_reads (s p r : pystr) :
  skip_ws s = p ++ r -> p <> [] ->
  exists w, s = w ++ p ++ r /\ forallb is_ws w = true /\
            forall y, skip_ws (w ++ p ++ y) = p ++ y.
Proof.
  intros H Hp. destruct p as [|c p]; [congruence|]. cbn [app] in *.
  destruct (@skip_ws_expect s c (p ++ r) H) as (w & Hs & Hw & Hy).
  exists w. split; [assumption|]. split; [assumption|].
  intros y. apply Hy.
Qed.

Section Containers.
Variables scan scan' : pystr -> Json.scan (value * pystr).
Variable bound : nat.
Hypothesis scan_local : local scan scan' bound.

Lemma object_members_local (n : nat) (s : pystr)
  (pairs : list (pystr * value)) (v : value) (r : pystr) :
  object_members scan n s pairs = Found (v, r) ->
  exists pre,
    s = pre ++ r /\ (exists pre0, pre = pre0 ++ [125]) /\
    (exists d, v = VDict d) /\
    forall r' n',
      (length (pre ++ r') < n')%nat -> (length (pre ++ r') < bound)%nat ->
      object_members scan' n' (pre ++ r') pairs = Found (v, r').
Proof.
  revert s pairs. induction n as [|n IH]; intros s pairs H; [discriminate|].
  cbn [object_members] in H.
  destruct (scanstring s) as [[key s1]| |e|] eqn:K; cbn [and_then] in H;
    try discriminate.
  destruct (@scanstring_local s key s1 K) as (p1 & -> & Hp1 & K').
  destruct (skip_ws s1) as [|c s2] eqn:W1; [discriminate|].
  destruct (@skip_ws_expect s1 c s2 W1) as (w1 & -> & Hw1 & W1').
  destruct (negb (c =? 58)) eqn:C; [discriminate|].
  destruct (scan (skip_ws s2)) as [[x s3]| |e|] eqn:V; cbn [and_then] in H;
    try discriminate.
  destruct (scan_local V) as (px & Hx & Hpx & _ & V').
  destruct (@skip_ws_reads s2 px s3 Hx Hpx) as (w2 & -> & Hw2 & W2').
  destruct (skip_ws s3) as [|d s4] eqn:W3; [discriminate|].
  destruct (@skip_ws_expect s3 d s4 W3) as (w3 & -> & Hw3 & W3').
  assert (Hstops : forall y, stop d = true -> stops (w3 ++ d :: y)).
  { intros y Hd. now apply stop_not_ws_head. }
  destruct (d =? 125) eqn:D.
  - injection H as <- <-. apply N.eqb_eq in D. subst d.
    exists (p1 ++ w1 ++ c :: w2 ++ px ++ w3 ++ [125]).
    split; [now norm_app|]. split.
    { exists (p1 ++ w1 ++ c :: w2 ++ px ++ w3). now norm_app. }
    split; [eauto|].
    intros r' n' Hn Hb. norm_app.
    destruct n' as [|n']; [lia|]. cbn [object_members].
    rewrite K'. cbn [and_then]. rewrite W1', C, W2'.
    rewrite V'; [|right; now apply Hstops|norm_app; lengths].
    cbn [and_then]. rewrite W3'. reflexivity.
  - destruct (negb (d =? 44)) eqn:E; [discriminate|].
    destruct (skip_ws s4) as [|q s5] eqn:W4; [discriminate|].
    destruct (@skip_ws_expect s4 q s5 W4) as (w4 & -> & Hw4 & W4').
    destruct (q =? 34) eqn:Q; [|discriminate].
    destruct (IH _ _ H) as (p5 & -> & Hend & Hdict & Hrec).
    exists (p1 ++ w1 ++ c :: w2 ++ px ++ w3 ++ d :: w4 ++ q :: p5).
    split; [now norm_app|]. split.
    { destruct Hend as [p0 ->].
      exists (p1 ++ w1 ++ c :: w2 ++ px ++ w3 ++ d :: w4 ++ q :: p0).
      now norm_app. }
    split; [assumption|].
    intros r' n' Hn Hb. norm_app.
    destruct n' as [|n']; [lia|]. cbn [object_members].
    rewrite K'. cbn [and_then]. rewrite W1', C, W2'.
    rewrite V'.
    + cbn [and_then]. rewrite W3', D, E, W4', Q.
      apply Hrec; revert Hn Hb; norm_app; lengths.
    + right. apply Hstops. unfold stop.
      apply negb_false_iff in E. rewrite E. now rewrite !orb_true_r.
    + revert Hb. norm_app. lengths.
Qed.

Lemma array_items_local (n : nat) (s : pystr) (values : list value)
  (v : value) (r : pystr) :
  array_items scan n s values = Found (v, r) ->
  exists pre,
    s = pre ++ r /\ pre <> [] /\ (exists l, v = VList l) /\
    forall r' n',
      (length (pre ++ r') < n')%nat -> (length (pre ++ r') < bound)%nat ->
      array_items scan' n' (pre ++ r') values = Found (v, r').
Proof.
  revert s values. induction n as [|n IH]; intros s values H; [discriminate|].
  cbn [array_items] in H.
  destruct (scan s) as [[x s1]| |e|] eqn:V; cbn [and_then] in H;
    try discriminate.
  destruct (scan_local V) as (px & -> & Hpx & _ & V').
  destruct (skip_ws s1) as [|d s2] eqn:W1; [discriminate|].
  destruct (@skip_ws_expect s1 d s2 W1) as (w1 & -> & Hw1 & W1').
  assert (Hstops : forall y, stop d = true -> stops (w1 ++ d :: y)).
  { intros y Hd. now apply stop_not_ws_head. }
  destruct (d =? 93) eqn:D.
  - injection H as <- <-.
    exists (px ++ w1 ++ [d]). split; [now norm_app|]. split.
    { destruct px; [congruence|discriminate]. }
    split; [eauto|].
    intros r' n' Hn Hb. norm_app.
    destruct n' as [|n']; [lia|]. cbn [array_items].
    rewrite V'.
    + cbn [and_then]. rewrite W1', D. reflexivity.
    + right. apply Hstops. unfold stop. rewrite D. now rewrite !orb_true_r.
    + revert Hb. norm_app. lengths.
  - destruct (negb (d =? 44)) eqn:E; [discriminate|].
    destruct (IH _ _ H) as (p & Hp & Hpne & Hlist & Hrec).
    destruct (@skip_ws_reads s2 p r Hp Hpne) as (w2 & -> & Hw2 & W2').
    exists (px ++ w1 ++ d :: w2 ++ p). split; [now norm_app|]. split.
    { destruct px; [congruence|discriminate]. }
    split; [assumption|].
    intros r' n' Hn Hb. norm_app.
    destruct n' as [|n']; [lia|]. cbn [array_items].
    rewrite V'.
    + cbn [and_then]. rewrite W1', D, E, W2'.
      apply Hrec; revert Hn Hb; norm_app; lengths.
    + right. apply Hstops. unfold stop.
      apply negb_false_iff in E. rewrite E. now rewrite !orb_true_r.
    + revert Hb. norm_app. lengths.
Qed.

End Containers.

(** ** One value *)

Lemma number_head (c : char) :
  c = 45 \/ is_digit c = true ->
  (c =? 34) = false /\ (c =? 123) = false /\ (c =? 91) = false /\
  (110 =? c) = false /\ (116 =? c) = false /\ (102 =? c) = false.
Proof.
  intros [->|H]; [now repeat split|].
  unfold is_digit in H. apply andb_true_iff in H. destruct H as [H1 H2].
  apply N.leb_le in H1, H2. repeat split; apply N.eqb_neq; lia.
Qed.

Lemma after_mismatch (a : char) (p : pystr) (c : char) (x : pystr) :
  (a =? c) = false -> after (a :: p) (c :: x) = None.
Proof. cbn [after]. now intros ->. Qed.

Lemma scan_once_number (rt : runtime) (fuel depth : nat) (c : char)
  (x : pystr) (found : value * pystr) :
  c = 45 \/ is_digit c = true ->
  match_number (c :: x) = Some found ->
  scan_once rt (S fuel) depth (c :: x) = number_result rt (c :: x) found.
Proof.
  intros Hc Hm. destruct (number_head Hc) as (H1 & H2 & H3 & H4 & H5 & H6).
  cbn [scan_once]. rewrite H1, H2, H3.
  change (lit "null") with (110 :: [117; 108; 108]).
  change (lit "true") with (116 :: [114; 117; 101]).
  change (lit "false") with (102 :: [97; 108; 115; 101]).
  rewrite !after_mismatch by assumption. now rewrite Hm.
Qed.

Lemma match_number_not_delimited (s : pystr) (v : value) (r : pystr) :
  match_number s = Some (v, r) -> ~ delimited v.
Proof.
  unfold match_number.
  destruct (match_integer s) as [[i s1]|]; [|discriminate].
  destruct (match_fraction s1) as [f s2], (match_exponent s2) as [e s3].
  destruct f, e; intros [= <- _]; exact (fun H => H).
Qed.

(** The value found at the head of a text is found again, with any fuel
    that is more than the length of the text, when the text after the
    value is changed. *)
Lemma number_result_found (rt : runtime) (s s' : pystr)
  (found : value * pystr) (v : value) (r r' : pystr) :
  number_result rt s found = Found (v, r) ->
  int_digits s' = int_digits s ->
  found = (v, r) /\ number_result rt s' (v, r') = Found (v, r').
Proof.
  unfold number_result. intros H E. rewrite E.
  destruct found as [x r0]. cbn [fst] in *.
  destruct x; try (injection H as <- <-; split; reflexivity).
  destruct (int_refused rt (int_digits s)); [discriminate|].
  injection H as <- <-. split; reflexivity.
Qed.

Lemma scan_once_local (rt : runtime) (f1 f2 depth : nat) :
  local (scan_once rt f1 depth) (scan_once rt f2 depth) f2.
Proof.
  revert f2 depth.
  induction f1 as [|f1 IH]; intros f2 depth s v r H; [discriminate|].
  destruct s as [|c t]; [discriminate|]. cbn [scan_once] in H.
  destruct (c =? 34) eqn:C1.
  { destruct (scanstring t) as [[text r0]| |e|] eqn:K; cbn [and_then] in H;
      try discriminate.
    injection H as <- <-.
    destruct (@scanstring_local t text r0 K) as (p & -> & Hp & K').
    exists (c :: p). split; [reflexivity|]. split; [discriminate|].
    split; [intros d E; discriminate E|].
    intros r' _ Hb. destruct f2 as [|f2]; [lengths|].
    cbn [app scan_once]. now rewrite C1, K'. }
  destruct (c =? 123) eqn:C2.
  { pose proof (proj1 (N.eqb_eq _ _) C2) as Ec.
    destruct depth as [|depth]; [discriminate|].
    unfold JSONObject in H.
    destruct (skip_ws t) as [|c' t'] eqn:W; [discriminate|].
    destruct (@skip_ws_expect t c' t' W) as (w & -> & Hw & W').
    destruct (c' =? 125) eqn:D.
    - injection H as <- <-. apply N.eqb_eq in D. subst c'.
      exists (c :: w ++ [125]). split; [now norm_app|].
      split; [discriminate|].
      split; [intros d _; exists w; now rewrite Ec|].
      intros r' _ Hb. destruct f2 as [|f2]; [lengths|].
      norm_app. cbn [scan_once]. rewrite C1, C2. unfold JSONObject.
      now rewrite W'.
    - destruct (c' =? 34) eqn:Q; [|discriminate].
      destruct (@object_members_local (scan_once rt f1 depth)
                  (scan_once rt (pred f2) depth)
                  (pred f2) (IH (pred f2) depth) f1 t' [] v r H)
        as (p & -> & (p0 & ->) & (d & ->) & Hrec).
      exists (c :: w ++ c' :: p0 ++ [125]). split; [now norm_app|].
      split; [discriminate|].
      split; [intros d' _; exists (w ++ c' :: p0); rewrite Ec; now norm_app|].
      intros r' _ Hb. destruct f2 as [|f2]; [lengths|].
      cbn [pred] in Hrec. specialize (Hrec r' f2).
      revert Hb Hrec. norm_app. intros Hb Hrec.
      cbn [scan_once]. rewrite C1, C2. unfold JSONObject.
      rewrite W', D, Q. apply Hrec; lengths. }
  destruct (c =? 91) eqn:C3.
  { destruct depth as [|depth]; [discriminate|].
    unfold JSONArray in H.
    destruct (skip_ws t) as [|c' t'] eqn:W; [discriminate|].
    destruct (c' =? 93) eqn:D.
    - injection H as <- <-.
      destruct (@skip_ws_expect t c' t' W) as (w & -> & Hw & W').
      exists (c :: w ++ [c']). split; [now norm_app|].
      split; [discriminate|]. split; [intros d E; discriminate E|].
      intros r' _ Hb. destruct f2 as [|f2]; [lengths|].
      norm_app. cbn [scan_once]. rewrite C1, C2, C3. unfold JSONArray.
      now rewrite W', D.
    - destruct (@array_items_local (scan_once rt f1 depth)
                  (scan_once rt (pred f2) depth)
                  (pred f2) (IH (pred f2) depth) f1 (c' :: t') [] v r H)
        as (p & Hp & Hpne & (l & ->) & Hrec).
      rewrite Hp in W.
      destruct (@skip_ws_reads t p r W Hpne) as (w & -> & Hw & W').
      exists (c :: w ++ p). split; [now norm_app|].
      split; [discriminate|]. split; [intros d E; discriminate E|].
      intros r' _ Hb. destruct f2 as [|f2]; [lengths|].
      cbn [pred] in Hrec. specialize (Hrec r' f2).
      revert Hb. norm_app. intros Hb.
      cbn [scan_once]. rewrite C1, C2, C3. unfold JSONArray.
      rewrite W'. destruct p as [|a p]; [congruence|].
      injection Hp as <- _. cbn [app] in *. rewrite D.
      apply Hrec; lengths. }
  assert (Hlit : forall (p : pystr) (x : value),
            p <> [] -> (forall d, x <> VDict d) ->
            (forall r' f, scan_once rt (S f) depth (p ++ r') = Found (x, r')) ->
            after p (c :: t) = Some r -> v = x ->
            exists pre,
              c :: t = pre ++ r /\ pre <> [] /\
              (forall d, v = VDict d -> exists mid, pre = 123 :: mid ++ [125]) /\
              forall r', delimited v \/ stops r' ->
                         (length (pre ++ r') < f2)%nat ->
                         scan_once rt f2 depth (pre ++ r') = Found (v, r')).
  { intros p x Hp Hx Hscan A ->. apply after_spec in A.
    exists p. split; [assumption|]. split; [assumption|].
    split; [intros d E; now apply Hx in E|].
    intros r' _ Hb. destruct f2 as [|f2]; [lengths|]. apply Hscan. }
  destruct (after (lit "null") (c :: t)) as [r0|] eqn:A1.
  { injection H as <- <-. apply (Hlit (lit "null") VNone); try easy. }
  destruct (after (lit "true") (c :: t)) as [r0|] eqn:A2.
  { injection H as <- <-. apply (Hlit (lit "true") (VBool true)); try easy. }
  destruct (after (lit "false") (c :: t)) as [r0|] eqn:A3.
  { injection H as <- <-. apply (Hlit (lit "false") (VBool false)); try easy. }
  destruct (match_number (c :: t)) as [[x r0]|] eqn:M.
  { destruct (@number_result_found rt _ (c :: t) _ _ _ r0 H eq_refl)
      as [[= <- <-] _].
    pose proof (match_number_not_delimited _ M) as Hnd.
    destruct (@match_number_local _ _ _ M)
      as (text & Ht & (c0 & t0 & -> & Hc0) & Hloc).
    exists (c0 :: t0). split; [assumption|]. split; [discriminate|].
    split; [intros d ->; now destruct Hnd|].
    intros r' [Hd|Hs] Hb; [contradiction|].
    destruct f2 as [|f2]; [lengths|].
    destruct (Hloc r' Hs) as [Hm Hdigits].
    cbn [app] in *. rewrite (@scan_once_number rt f2 depth _ _ _ Hc0 Hm).
    now apply (@number_result_found rt (c :: t) _ _ _ _ r' H Hdigits). }
  destruct (after (lit "NaN") (c :: t)) as [r0|] eqn:A4.
  { injection H as <- <-.
    apply (Hlit (lit "NaN") (VFloat (lit "NaN"))); try easy. }
  destruct (after (lit "Infinity") (c :: t)) as [r0|] eqn:A5.
  { injection H as <- <-.
    apply (Hlit (lit "Infinity") (VFloat (lit "Infinity"))); try easy. }
  destruct (after (lit "-Infinity") (c :: t)) as [r0|] eqn:A6;
    [|discriminate].
  injection H as <- <-.
  apply (Hlit (lit "-Infinity") (VFloat (lit "-Infinity"))); try easy.
Qed.

(** ** The whole text *)

Lemma loads_of_scan (rt : runtime) (core : pystr) (v : value) :
  scan_once rt (S (length core)) (Pos.to_nat (max_nesting rt)) core
  = Found (v, []) ->
  startswith core [65279] = false ->
  skip_ws core = core ->
  loads rt core = Found v.
Proof. unfold loads. now intros H -> ->; rewrite H. Qed.

(** A text that decodes to a dict is an object between white space, and
    the object alone decodes to the same dict. *)
Lemma loads_dict (rt : runtime) (raw : pystr) (d : dict) :
  loads rt raw = Found (VDict d) ->
  exists w mid rest,
    raw = w ++ (123 :: mid ++ [125]) ++ rest /\
    forallb is_ws w = true /\ forallb is_ws rest = true /\
    loads rt (123 :: mid ++ [125]) = Found (VDict d).
Proof.
  unfold loads at 1. destruct (startswith raw [65279]); [discriminate|].
  destruct (scan_once rt (S (length raw)) (Pos.to_nat (max_nesting rt))
              (skip_ws raw)) as [[v rest]| |e|] eqn:Hs;
    cbn [and_then]; try discriminate.
  destruct (skip_ws rest) eqn:W; [|discriminate]. intros [= ->].
  destruct (@scan_once_local rt _ 0 _ _ _ _ Hs) as (pre & Hpre & _ & Hmid & _).
  destruct (Hmid d eq_refl) as [mid ->].
  destruct (@scan_once_local rt _ (S (length (123 :: mid ++ [125]))) _ _ _ _ Hs)
    as (pre' & Hpre' & _ & _ & Hloc).
  assert (pre' = 123 :: mid ++ [125]) as ->.
  { rewrite Hpre in Hpre'. now apply app_inv_tail in Hpre'. }
  destruct (skip_ws_split raw) as (w & Hraw & Hw).
  exists w, mid, rest.
  split; [transitivity (w ++ skip_ws raw); [exact Hraw|f_equal; exact Hpre]|].
  split; [assumption|]. split; [now apply skip_ws_blank|].
  specialize (Hloc [] (or_introl I)). rewrite app_nil_r in Hloc.
  apply loads_of_scan; [|reflexivity|reflexivity].
  apply Hloc. apply le_n.
Qed.

End JsonLocality.

(* ================================================================== *)
(** * The properties of the specification *)
(* ================================================================== *)

Import Py Value App Spec.
Import PyFacts DictFacts AppFacts JsonFacts ReFacts NormaliserFacts.
Import JsonLocality.
Local Open Scope N_scope.

(** The one exception that leaves the completion of a decoded object is
    the [TypeError] of a loop over a field that cannot be iterated. *)
Lemma complete_outcomes (rt : runtime) (d : dict) :
  (exists r, complete rt d = Return r) \/
  (exists field,
      complete rt d =
      Raise (TypeError (lit "'" ++ type_name field
                        ++ lit "' object is not iterable"))).
Proof.
  unfold complete. generalize (fold_left ensure_key required_keys d).
  assert (Hkey : forall parsed key,
            (exists r, split_key rt parsed key = Return r) \/
            (exists field,
                split_key rt parsed key =
                Raise (TypeError (lit "'" ++ type_name field
                                  ++ lit "' object is not iterable")))).
  { intros parsed key. unfold split_key.
    destruct (dict_get key parsed) as [field|]; [|left; eauto].
    destruct (truthy rt field); [|left; eauto].
    destruct field; cbn [iterate bind]; eauto. }
  intros parsed. unfold item_keys. cbn [fold_left bind].
  destruct (Hkey parsed key_decisions) as [[d1 ->]|[f ->]];
    cbn [bind]; [|right; eauto].
  destruct (Hkey d1 action_items) as [[d2 ->]|[f ->]];
    cbn [bind]; [|right; eauto].
  destruct (Hkey d2 discussion_points) as [[d3 ->]|[f ->]]; eauto.
Qed.

(** C1.  The normaliser is not total: on an object whose [key_decisions]
    field is the number 5 the loop over the items of the field raises
    [TypeError], which the handler of [JSONDecodeError] does not catch, so
    that the exception reaches the caller instead of a record; a request
    that the model answers with this text gets status 500. *)
Theorem number_field_raises (rt : runtime) :
  extract_json_from_response rt (jlit "{'key_decisions': 5}") =
  Raise (TypeError (lit "'int' object is not iterable"))
  /\ analyze_meeting rt (fun _ => ChatReply (jlit "{'key_decisions': 5}"))
       (VDict [(lit "transcript", VStr (lit "We met."))]) =
     ([create_analysis_prompt (lit "We met.")],
      {| status := 500;
         body := [ (lit "error",
                     VStr (lit "Error: 'int' object is not iterable"));
                   (lit "suggestion",
                     VStr (lit "Make sure model is available: ollama pull llama3.2")) ] |}).
Proof.
  assert (E : extract_json_from_response rt (jlit "{'key_decisions': 5}") =
              Raise (TypeError (lit "'int' object is not iterable"))).
  { unfold extract_json_from_response.
    replace (Re.search (cleaned_text (jlit "{'key_decisions': 5}")))
      with (Some (jlit "{'key_decisions': 5}")) by (vm_compute; reflexivity).
    cbv iota.
    replace (Json.loads rt (jlit "{'key_decisions': 5}"))
      with (Json.Found (VDict [(key_decisions, VInt 5)])).
    - vm_compute. reflexivity.
    - unfold Json.loads.
      destruct (Pos2Nat.is_succ (max_nesting rt)) as [depth ->].
      vm_compute. reflexivity. }
  split; [exact E|].
  unfold analyze_meeting, analyze_meeting_try.
  replace (dict_get (lit "transcript")
             [(lit "transcript", VStr (lit "We met."))])
    with (Some (VStr (lit "We met."))) by (vm_compute; reflexivity).
  cbv iota zeta.
  replace (negb (nonempty (strip (lit "We met.")))) with false
    by (vm_compute; reflexivity).
  cbv iota. rewrite E. vm_compute. reflexivity.
Qed.

(** C2, as the code has it.  A record the normaliser returns has the five
    required fields, on the normal path and on the fallback path, and a
    field the decoded object lacks holds its default: the sentinel text
    for the summary, the empty list for the four others.  (A field the
    object gives as [null] stays [null].) *)
Theorem required_fields_present (rt : runtime) (response_text : pystr)
  (r : dict) :
  extract_json_from_response rt response_text = Return r ->
  (forall k, In k required_keys -> dict_contains k r = true) /\
  (forall d k,
      parsed_object rt response_text = Some d ->
      In k required_keys -> dict_contains k d = false ->
      dict_get k r = Some (default_value k)).
Proof.
  intros H. destruct (parsed_object rt response_text) as [d|] eqn:Hp.
  - split.
    + intros k Hin. apply dict_contains_get.
      rewrite (extract_get _ _ k Hp H).
      destruct (dict_get k d); [eauto|]. rewrite in_keys by assumption. eauto.
    + intros d' k [= <-] Hin Hk. apply dict_contains_none in Hk.
      rewrite (extract_get _ _ k Hp H), Hk. now rewrite in_keys.
  - apply (@extract_undecoded _ _ _ Hp) in H. subst r. split.
    + intros k Hin. unfold required_keys in Hin. cbn [In] in Hin.
      destruct Hin as [<-|[<-|[<-|[<-|[<-|[]]]]]]; reflexivity.
    + discriminate.
Qed.

Lemma required_fields_present_example :
  dict_get meeting_summary
    [ (participants, VList [VStr (lit "Ann")]);
      (meeting_summary, VStr (lit "No summary available"));
      (key_decisions, VList []); (action_items, VList []);
      (discussion_points, VList []) ]
  = Some (default_value meeting_summary).
Proof.
  refine (proj2 (@required_fields_present example_runtime
                   (jlit "{'participants': ['Ann']}") _ _) _ _ _ _ _);
    vm_compute; auto.
Defined.

(** C2 as stated fails: a required field given as [null] comes back as
    [null]. *)
Lemma null_field_stays_null :
  extract_json_from_response example_runtime (jlit "{'participants': null}") =
  Return [ (participants, VNone);
           (meeting_summary, VStr (lit "No summary available"));
           (key_decisions, VList []); (action_items, VList []);
           (discussion_points, VList []) ]
  /\ dict_get participants
       [ (participants, VNone);
         (meeting_summary, VStr (lit "No summary available"));
         (key_decisions, VList []); (action_items, VList []);
         (discussion_points, VList []) ] = Some VNone.
Proof. split; vm_compute; reflexivity. Qed.

(** C5.  The fallback record is not what every span that fails to decode
    gets.  The [except] clause catches [JSONDecodeError] only and prints
    the span before it goes on to the fallback record.  So a span the
    decoder refuses that holds a lone surrogate, which a standard output
    in UTF-8 cannot encode, leaves the normaliser with the
    [UnicodeEncodeError] of [print], and the handler answers 500; and a
    span with an integer of 4301 digits, or with 1000 arrays inside one
    another, leaves it with the [ValueError] or the [RecursionError] of
    the decoder. *)
Theorem fallback_not_reached :
  (Re.search (cleaned_text (lit "{" ++ [55296] ++ lit "}")) =
     Some (lit "{" ++ [55296] ++ lit "}")
   /\ Json.loads example_runtime (lit "{" ++ [55296] ++ lit "}") = Json.Invalid
   /\ extract_json_from_response example_runtime
        (lit "{" ++ [55296] ++ lit "}") =
      Raise (UnicodeEncodeError
               (lit "'utf-8' codec can't encode character '\ud800' in position 21: surrogates not allowed"))
   /\ snd (analyze_meeting example_runtime
             (fun _ => ChatReply (lit "{" ++ [55296] ++ lit "}"))
             (VDict [(lit "transcript", VStr (lit "We met."))])) =
      {| status := 500;
         body := [ (lit "error",
                     VStr (lit "Error: 'utf-8' codec can't encode character '\ud800' in position 21: surrogates not allowed"));
                   (lit "suggestion",
                     VStr (lit "Make sure model is available: ollama pull llama3.2")) ] |})
  /\ extract_json_from_response example_runtime
       (jlit "{'n': " ++ repeat 49 4301 ++ lit "}") =
     Raise (ValueError
              (lit "Exceeds the limit (4300 digits) for integer string conversion: value has 4301 digits; use sys.set_int_max_str_digits() to increase the limit"))
  /\ extract_json_from_response example_runtime
       (jlit "{'n': " ++ repeat 91 1000 ++ repeat 93 1000 ++ lit "}") =
     Raise (RecursionError
              (lit "maximum recursion depth exceeded while decoding a JSON array from a unicode string")).
Proof. repeat split; vm_compute; reflexivity. Qed.

(** C8.  A request whose transcript is empty or white space only is
    answered with status 400 and the error [Empty transcript], and no
    prompt is sent to the model. *)
Theorem empty_transcript_rejected (rt : runtime) (chat : pystr -> chat_result)
  (d : dict) (text : pystr) :
  dict_get (lit "transcript") d = Some (VStr text) ->
  blank text ->
  analyze_meeting rt chat (VDict d) =
  ([], {| status := 400;
          body := [(lit "error", VStr (lit "Empty transcript"))] |}).
Proof.
  intros Hd Hb. unfold analyze_meeting, analyze_meeting_try.
  rewrite Hd, (strip_blank _ Hb). reflexivity.
Qed.

Lemma empty_transcript_rejected_spaces :
  analyze_meeting example_runtime (fun _ => ChatReply (jlit "{}"))
    (VDict [(lit "transcript", VStr (lit "   "))]) =
  ([], {| status := 400;
          body := [(lit "error", VStr (lit "Empty transcript"))] |}).
Proof.
  apply (@empty_transcript_rejected example_runtime _ _ (lit "   "));
    reflexivity.
Defined.

(** C9.  A field of the decoded object under any key but the three item
    keys comes back unchanged, whatever its type: [participants] and
    [meeting_summary] in particular, [null] included. *)
Theorem other_fields_unchanged (rt : runtime) (response_text : pystr)
  (d r : dict) (k : pystr) (v : value) :
  parsed_object rt response_text = Some d ->
  extract_json_from_response rt response_text = Return r ->
  ~ In k item_keys ->
  dict_get k d = Some v ->
  dict_get k r = Some v.
Proof.
  intros Hp H Hk Hv. rewrite (extract_get _ _ k Hp H), Hv.
  unfold rewritten. now rewrite not_in_item_keys.
Qed.

Lemma other_fields_unchanged_null :
  dict_get participants
    [ (participants, VNone); (meeting_summary, VInt 5);
      (key_decisions, VList [VStr (lit "a")]);
      (action_items, VList []); (discussion_points, VList []) ]
  = Some VNone.
Proof.
  apply (@other_fields_unchanged example_runtime
           (jlit "{'participants': null, 'meeting_summary': 5, 'key_decisions': [' a ']}")
           [ (participants, VNone); (meeting_summary, VInt 5);
             (key_decisions, VList [VStr (lit " a ")]) ]);
    try (vm_compute; reflexivity).
  vm_compute. intuition discriminate.
Defined.

Lemma pieces_single (c : char) : pieces [c] = [if isspace c then [] else [c]].
Proof.
  unfold pieces, count. change delimiter with [32; 45; 32].
  cbn [count_from startswith]. rewrite andb_false_r.
  cbn [Nat.ltb Nat.leb]. now rewrite strip_single.
Qed.

Lemma deconcatenate_characters (rt : runtime) (s : pystr) :
  deconcatenate rt (List.map (fun c => VStr [c]) s) =
  List.map (fun c => if isspace c then [] else [c]) s.
Proof.
  unfold deconcatenate. induction s as [|c t IH]; [reflexivity|].
  cbn [List.map flat_map]. now rewrite IH, pieces_single.
Qed.

(** C10.  An item field given as a non-empty string is read character by
    character: the field comes back as the list of its characters, each a
    string of its own, a white-space character as the empty string. *)
Theorem string_field_read_by_character (rt : runtime) (response_text : pystr)
  (d r : dict) (k s : pystr) :
  parsed_object rt response_text = Some d ->
  extract_json_from_response rt response_text = Return r ->
  In k item_keys ->
  dict_get k d = Some (VStr s) ->
  s <> [] ->
  dict_get k r =
  Some (VList (List.map (fun c => VStr (if isspace c then [] else [c])) s)).
Proof.
  intros Hp H Hk Hv Hs. rewrite (extract_get _ _ k Hp H), Hv.
  unfold rewritten. rewrite in_keys by assumption.
  destruct s as [|c t]; [congruence|].
  cbn [truthy nonempty andb iterate].
  now rewrite deconcatenate_characters, List.map_map.
Qed.

Lemma string_field_read_by_character_AB :
  dict_get key_decisions
    [ (key_decisions, VList [VStr (lit "A"); VStr (lit "B")]);
      (meeting_summary, VStr (lit "No summary available"));
      (participants, VList []); (action_items, VList []);
      (discussion_points, VList []) ]
  = Some (VList [VStr (lit "A"); VStr (lit "B")]).
Proof.
  apply (@string_field_read_by_character example_runtime
           (jlit "{'key_decisions': 'AB'}")
           [(key_decisions, VStr (lit "AB"))] _ key_decisions (lit "AB"));
    try (vm_compute; reflexivity).
  - vm_compute. auto.
  - discriminate.
Defined.

(** C4, as the code has it.  The elements of an item field given as a
    list are rewritten in their order, each at its own place: a string
    with the delimiter more than twice becomes its trimmed, non-empty
    pieces; any other string is kept, trimmed; an element that is not a
    string is coerced to its text and kept whole.  So [A - B] stays one
    element and [A - B - C - D] becomes four. *)
Theorem items_deconcatenated :
  (forall (rt : runtime) (response_text : pystr) (d r : dict) (k : pystr)
          (items : list value),
      parsed_object rt response_text = Some d ->
      extract_json_from_response rt response_text = Return r ->
      In k item_keys ->
      dict_get k d = Some (VList items) ->
      dict_get k r = Some (VList (List.map VStr (deconcatenate rt items))))
  /\ pieces (lit "A - B") = [lit "A - B"]
  /\ pieces (lit "A - B - C - D") = [lit "A"; lit "B"; lit "C"; lit "D"].
Proof.
  split; [|split; vm_compute; reflexivity].
  intros rt response_text d r k items Hp H Hk Hv.
  rewrite (extract_get _ _ k Hp H), Hv.
  unfold rewritten. rewrite in_keys by assumption.
  destruct items; reflexivity.
Qed.

Lemma items_deconcatenated_example :
  dict_get action_items
    [ (action_items,
        VList [VStr (lit "x"); VStr (lit "A"); VStr (lit "B"); VStr (lit "C");
               VStr (lit "D"); VStr (lit "7"); VStr (lit "A - B")]);
      (meeting_summary, VStr (lit "No summary available"));
      (participants, VList []); (key_decisions, VList []);
      (discussion_points, VList []) ]
  = Some (VList (List.map VStr
            (deconcatenate example_runtime
               [VStr (lit " x "); VStr (lit "A - B -  - C - D"); VInt 7;
                VStr (lit "A - B")]))).
Proof.
  apply (proj1 items_deconcatenated example_runtime
           (jlit "{'action_items': [' x ', 'A - B -  - C - D', 7, 'A - B']}")
           [(action_items,
              VList [VStr (lit " x "); VStr (lit "A - B -  - C - D"); VInt 7;
                     VStr (lit "A - B")])]);
    try (vm_compute; reflexivity).
  vm_compute. auto.
Defined.

(** C4 as stated fails: an element that is not a string is not split
    after its coercion, even when its text has the delimiter more than
    twice. *)
Lemma coerced_item_not_split :
  extract_json_from_response example_runtime
    (jlit "{'key_decisions': [['a - b - c - d']]}") =
  Return [ (key_decisions, VList [VStr (lit "['a - b - c - d']")]);
           (meeting_summary, VStr (lit "No summary available"));
           (participants, VList []); (action_items, VList []);
           (discussion_points, VList []) ]
  /\ deconcatenate_coerce_first example_runtime
       [VList [VStr (lit "a - b - c - d")]] =
     [lit "['a"; lit "b"; lit "c"; lit "d']"].
Proof. split; vm_compute; reflexivity. Qed.

Lemma lstrip_before (pre : pystr) (c : char) (x : pystr) :
  isspace c = false -> lstrip (pre ++ c :: x) = lstrip pre ++ c :: x.
Proof.
  intros Hc. induction pre as [|a pre IH]; cbn [app lstrip].
  - now rewrite Hc.
  - destruct (isspace a); [assumption|reflexivity].
Qed.

Lemma rstrip_after (x : pystr) (c : char) (post : pystr) :
  isspace c = false -> rstrip (x ++ c :: post) = x ++ c :: rstrip post.
Proof.
  intros Hc. unfold rstrip. rewrite rev_app_distr. cbn [rev].
  rewrite <- app_assoc. cbn [app]. rewrite lstrip_before by assumption.
  rewrite rev_app_distr. cbn [rev]. rewrite rev_involutive, <- app_assoc.
  reflexivity.
Qed.

Lemma free_of_app (c : char) (a b : pystr) :
  free_of c (a ++ b) <-> free_of c a /\ free_of c b.
Proof. unfold free_of. rewrite existsb_app. apply orb_false_iff. Qed.

Lemma free_of_lstrip (c : char) (s : pystr) : free_of c s -> free_of c (lstrip s).
Proof.
  destruct (lstrip_suffix s) as [a Ha]. intros H. rewrite Ha in H.
  now apply free_of_app in H.
Qed.

Lemma free_of_rstrip (c : char) (s : pystr) : free_of c s -> free_of c (rstrip s).
Proof.
  unfold rstrip, free_of. intros H.
  rewrite existsb_rev. apply free_of_lstrip. unfold free_of.
  now rewrite existsb_rev.
Qed.

(** Trimming a text around an object leaves the object where it is. *)
Lemma strip_around_object (pre mid post : pystr) :
  strip (pre ++ (123 :: mid ++ [125]) ++ post) =
  lstrip pre ++ (123 :: mid ++ [125]) ++ rstrip post.
Proof.
  unfold strip. cbn [app]. rewrite lstrip_before by reflexivity.
  rewrite <- app_assoc. cbn [app].
  replace (lstrip pre ++ 123 :: mid ++ 125 :: post)
    with ((lstrip pre ++ 123 :: mid) ++ 125 :: post)
    by (now rewrite <- app_assoc).
  rewrite rstrip_after by reflexivity.
  repeat first [rewrite <- app_assoc | progress cbn [app]]. reflexivity.
Qed.

(** C3, as the code has it.  The span searched for runs from the first
    opening brace of the cleaned text to its last closing brace.  When
    the cleaned text is commentary without an opening brace, then a JSON
    object, then commentary without a closing brace, the span is the
    object, and the normaliser goes on with what the object decodes to.
    This is so in particular for a raw text of that form that does not
    begin, once trimmed, with the marker of a fenced block. *)
Theorem brace_span_selected :
  (forall (rt : runtime) (response_text pre obj post : pystr) (d : dict),
      cleaned_text response_text = pre ++ obj ++ post ->
      free_of 123 pre ->
      free_of 125 post ->
      (exists mid, obj = 123 :: mid ++ [125]) ->
      Json.loads rt obj = Json.Found (VDict d) ->
      Re.search (cleaned_text response_text) = Some obj /\
      extract_json_from_response rt response_text = complete rt d)
  /\ (forall (rt : runtime) (pre obj post : pystr) (d : dict),
         free_of 123 pre ->
         free_of 125 post ->
         (exists mid, obj = 123 :: mid ++ [125]) ->
         Json.loads rt obj = Json.Found (VDict d) ->
         startswith (strip (pre ++ obj ++ post)) fence = false ->
         extract_json_from_response rt (pre ++ obj ++ post) = complete rt d).
Proof.
  assert (Hclean : forall (rt : runtime) (response_text pre obj post : pystr)
                          (d : dict),
      cleaned_text response_text = pre ++ obj ++ post ->
      free_of 123 pre ->
      free_of 125 post ->
      (exists mid, obj = 123 :: mid ++ [125]) ->
      Json.loads rt obj = Json.Found (VDict d) ->
      Re.search (cleaned_text response_text) = Some obj /\
      extract_json_from_response rt response_text = complete rt d).
  { intros rt response_text pre obj post d Hc Hpre Hpost [mid ->] Hl.
    assert (Hs : Re.search (cleaned_text response_text)
                 = Some (123 :: mid ++ [125])).
    { rewrite Hc. cbn [app]. rewrite <- app_assoc. cbn [app].
      now apply search_span. }
    split; [assumption|].
    unfold extract_json_from_response. now rewrite Hs, Hl. }
  split; [exact Hclean|].
  intros rt pre obj post d Hpre Hpost [mid ->] Hl Hfence.
  apply (Hclean rt _ (lstrip pre) (123 :: mid ++ [125]) (rstrip post));
    eauto using free_of_lstrip, free_of_rstrip.
  unfold cleaned_text, remove_code_block. rewrite Hfence.
  apply strip_around_object.
Qed.

Lemma brace_span_selected_example :
  Re.search
    (cleaned_text (jlit "Here it is: {'participants': ['Ann']} Hope it helps!")) =
  Some (jlit "{'participants': ['Ann']}")
  /\ extract_json_from_response example_runtime
       (jlit "Here it is: {'participants': ['Ann']} Hope it helps!") =
     complete example_runtime [(participants, VList [VStr (lit "Ann")])].
Proof.
  apply (proj1 brace_span_selected example_runtime _ (lit "Here it is: ")
           (jlit "{'participants': ['Ann']}") (lit " Hope it helps!"));
    try (vm_compute; reflexivity).
  exists (jlit "'participants': ['Ann']"). vm_compute. reflexivity.
Defined.

(** C3 as stated fails: a closing brace in the commentary after the
    object is taken for the end of the span, the span does not decode,
    and the fallback record is returned instead of the completed object. *)
Lemma brace_span_runs_to_last_brace :
  Json.loads example_runtime (jlit "{'participants': []}") =
    Json.Found (VDict [(participants, VList [])])
  /\ Re.search (cleaned_text (jlit "Result: {'participants': []} (end}")) =
     Some (jlit "{'participants': []} (end}")
  /\ extract_json_from_response example_runtime
       (jlit "Result: {'participants': []} (end}") =
     Return (fallback (jlit "Result: {'participants': []} (end}"))
  /\ extract_json_from_response example_runtime
       (jlit "Result: {'participants': []} (end}") <>
     complete example_runtime [(participants, VList [])].
Proof.
  repeat split; try (vm_compute; reflexivity).
  vm_compute. discriminate.
Qed.

(** A text without the marker is left as it is by the fence step, so that
    the cleaned text is the trimmed text. *)
Lemma cleaned_text_without_fence (response_text : pystr) :
  contains fence response_text = false ->
  cleaned_text response_text = strip response_text.
Proof.
  intros H. unfold cleaned_text, remove_code_block.
  destruct (startswith (strip response_text) fence) eqn:E; [|reflexivity].
  apply startswith_spec in E. destruct E as [r E].
  destruct (strip_segment response_text) as (a & b & Hs).
  rewrite E, <- app_assoc in Hs. rewrite Hs, contains_segment in H.
  discriminate.
Qed.

(** The lines that are left of a text whose first line opens a fence. *)
Lemma remove_code_block_lines (first rest : pystr) :
  startswith first fence = true ->
  free_of 10 first ->
  remove_code_block (first ++ 10 :: rest) =
  join newline
    (if startswith (last (split rest newline) []) fence
     then removelast (split rest newline)
     else split rest newline).
Proof.
  intros Hf Hn. unfold remove_code_block, newline.
  rewrite (@startswith_app_l first (10 :: rest) fence Hf), split_first_line
    by assumption.
  cbn [hd tl]. rewrite Hf.
  pose proof (@split_from_not_nil [10] 0 rest) as Hne.
  fold (split rest [10]) in Hne.
  destruct (split rest [10]); [congruence|reflexivity].
Qed.

(** C7.  The fence step leaves a text without the marker as it is.  On a
    text whose first line opens a fence it removes that line, whatever
    follows the marker on it, and the last line too when that line starts
    with the marker; the lines in between are kept as they are. *)
Theorem code_block_removed :
  (forall t, contains fence t = false -> remove_code_block t = t)
  /\ (forall response_text,
         contains fence response_text = false ->
         cleaned_text response_text = strip response_text)
  /\ (forall first,
         startswith first fence = true -> free_of 10 first ->
         remove_code_block first = []
         /\ (forall rest,
                startswith (last (split rest newline) []) fence = false ->
                remove_code_block (first ++ newline ++ rest) = rest)
         /\ (forall close,
                startswith close fence = true -> free_of 10 close ->
                remove_code_block (first ++ newline ++ close) = []
                /\ forall body,
                     remove_code_block
                       (first ++ newline ++ body ++ newline ++ close) = body)).
Proof.
  split; [|split].
  - intros t H. unfold remove_code_block.
    now rewrite (@contains_startswith fence t H).
  - exact cleaned_text_without_fence.
  - intros first Hf Hn. split; [|split].
    + unfold remove_code_block, newline.
      rewrite Hf, split_one_line by assumption.
      cbn [hd tl]. now rewrite Hf.
    + intros rest Hl. unfold newline at 1. cbn [app].
      rewrite remove_code_block_lines, Hl by assumption.
      apply join_split_lines.
    + intros close Hc Hcn. split.
      * unfold newline. cbn [app].
        rewrite remove_code_block_lines by assumption.
        unfold newline. rewrite split_one_line by assumption.
        cbn [last]. now rewrite Hc.
      * intros body. unfold newline at 1 2. cbn [app].
        rewrite remove_code_block_lines by assumption.
        unfold newline. rewrite !split_last_line by assumption.
        rewrite last_last, Hc, removelast_last.
        apply join_split_lines.
Qed.

Lemma code_block_removed_example :
  remove_code_block
    (lit "```json" ++ newline ++ jlit "{'participants': []}" ++ newline
     ++ lit "```") = jlit "{'participants': []}".
Proof.
  apply (proj2 (proj2 (proj2 (proj2 code_block_removed) (lit "```json")
                         eq_refl eq_refl))
           (lit "```") eq_refl eq_refl).
Defined.

(** ** Objects the normaliser leaves as they are *)

Lemma settled_deconcatenate (rt : runtime) (items : list value) :
  settled items -> List.map VStr (deconcatenate rt items) = items.
Proof.
  unfold settled, deconcatenate.
  induction 1 as [|item items (s & -> & Ht & Hc) _ IH]; [reflexivity|].
  cbn [flat_map]. rewrite List.map_app, IH. unfold pieces.
  apply Nat.ltb_ge in Hc. rewrite Hc, Ht. reflexivity.
Qed.

Lemma split_key_settled (rt : runtime) (d : dict) (k : pystr)
  (items : list value) :
  dict_get k d = Some (VList items) -> settled items ->
  split_key rt d k = Return d.
Proof.
  intros Hd Hs. unfold split_key. rewrite Hd.
  destruct items as [|item items]; [reflexivity|].
  cbn [truthy iterate bind]. rewrite clean_items_spec. cbn [app].
  rewrite settled_deconcatenate by assumption.
  now rewrite dict_set_same_value.
Qed.

Lemma complete_settled (rt : runtime) (d : dict) :
  (forall k, In k required_keys -> dict_contains k d = true) ->
  (forall k, In k item_keys ->
             exists items, dict_get k d = Some (VList items) /\ settled items) ->
  complete rt d = Return d.
Proof.
  intros Hreq Hitems. unfold complete.
  rewrite ensure_keys_present by assumption.
  unfold item_keys in *. cbn [fold_left].
  destruct (Hitems key_decisions) as (i1 & H1 & S1); [cbn [In]; auto|].
  destruct (Hitems action_items) as (i2 & H2 & S2); [cbn [In]; auto|].
  destruct (Hitems discussion_points) as (i3 & H3 & S3); [cbn [In]; auto|].
  cbn [bind]. rewrite (split_key_settled rt _ _ H1 S1). cbn [bind].
  rewrite (split_key_settled rt _ _ H2 S2). cbn [bind].
  now rewrite (split_key_settled rt _ _ H3 S3).
Qed.

(** A text that is a JSON object is the object the normaliser decodes. *)
Lemma loads_parsed_object (rt : runtime) (response_text : pystr) (d : dict) :
  Json.loads rt response_text = Json.Found (VDict d) ->
  parsed_object rt response_text = Some d.
Proof.
  intros H. destruct (@loads_dict _ _ _ H) as (w & mid & rest & -> & Hw & Hr & Hl).
  unfold parsed_object, cleaned_text.
  rewrite strip_core; try reflexivity; try now apply blank_of_ws.
  unfold remove_code_block.
  change (startswith (123 :: mid ++ [125]) fence) with false. cbv iota.
  pose proof (@search_span [] mid [] eq_refl eq_refl) as Hs.
  cbn [app] in Hs. rewrite Hs. now rewrite Hl.
Qed.

(** C6, as the code has it.  A raw text that is a JSON object with the
    five required fields, whose three item fields are lists of strings
    that are trimmed and hold the delimiter at most twice, comes back as
    the object it decodes to, fields in the same order. *)
Theorem well_formed_object_returned (rt : runtime) (response_text : pystr)
  (d : dict) :
  Json.loads rt response_text = Json.Found (VDict d) ->
  (forall k, In k required_keys -> dict_contains k d = true) ->
  (forall k, In k item_keys ->
             exists items, dict_get k d = Some (VList items) /\ settled items) ->
  extract_json_from_response rt response_text = Return d.
Proof.
  intros Hl Hreq Hitems.
  rewrite extract_spec, (@loads_parsed_object _ _ _ Hl).
  now apply complete_settled.
Qed.

Lemma well_formed_object_returned_example :
  extract_json_from_response example_runtime
    (jlit " {'meeting_summary': 'Plan', 'participants': ['Ann'], 'key_decisions': ['Ship - on Friday'], 'action_items': [], 'discussion_points': ['Budget']} ")
  = Return [ (meeting_summary, VStr (lit "Plan"));
             (participants, VList [VStr (lit "Ann")]);
             (key_decisions, VList [VStr (lit "Ship - on Friday")]);
             (action_items, VList []);
             (discussion_points, VList [VStr (lit "Budget")]) ].
Proof.
  apply well_formed_object_returned.
  - vm_compute. reflexivity.
  - intros k Hin. unfold required_keys in Hin. cbn [In] in Hin.
    destruct Hin as [<-|[<-|[<-|[<-|[<-|[]]]]]]; reflexivity.
  - intros k Hin. unfold item_keys in Hin. cbn [In] in Hin.
    destruct Hin as [<-|[<-|[<-|[]]]]; eexists; (split; [reflexivity|]);
      repeat (apply Forall_cons || apply Forall_nil);
      eexists; (split; [reflexivity|]);
      (split; [vm_compute; reflexivity|vm_compute; lia]).
Defined.

(** C6 as stated fails: a correctly typed object without merged items is
    changed when an item has white space at an end. *)
Lemma untrimmed_item_rewritten :
  Json.loads example_runtime
    (jlit "{'meeting_summary': 'Plan', 'participants': [], 'key_decisions': [' x '], 'action_items': [], 'discussion_points': []}")
  = Json.Found
      (VDict [ (meeting_summary, VStr (lit "Plan")); (participants, VList []);
               (key_decisions, VList [VStr (lit " x ")]);
               (action_items, VList []); (discussion_points, VList []) ])
  /\ count (lit " x ") delimiter = 0%nat
  /\ extract_json_from_response example_runtime
       (jlit "{'meeting_summary': 'Plan', 'participants': [], 'key_decisions': [' x '], 'action_items': [], 'discussion_points': []}")
     = Return [ (meeting_summary, VStr (lit "Plan")); (participants, VList []);
                (key_decisions, VList [VStr (lit "x")]);
                (action_items, VList []); (discussion_points, VList []) ].
Proof. repeat split; vm_compute; reflexivity. Qed.

(* ================================================================== *)
(** * Further properties of the normaliser *)
(* ================================================================== *)

Import Endpoints.

(** ** When the normaliser returns *)

Lemma split_key_other (rt : runtime) (d d' : dict) (key k : pystr) :
  split_key rt d key = Return d' -> k <> key -> dict_get k d' = dict_get k d.
Proof.
  intros H Hne. rewrite (@split_key_get rt d d' key k H).
  apply str_eqb_neq in Hne. rewrite Hne. cbn [andb].
  now destruct (dict_get k d).
Qed.

Lemma split_key_returns (rt : runtime) (d : dict) (key : pystr) :
  (exists d', split_key rt d key = Return d') <->
  (forall f, dict_get key d = Some f -> truthy rt f = true -> iterable f = true).
Proof.
  unfold split_key. destruct (dict_get key d) as [field|].
  - destruct (truthy rt field) eqn:T.
    + destruct (iterable field) eqn:I.
      * split; [intros _ f [= <-] _; exact I|]. intros _.
        destruct field; try discriminate I; cbn [iterate bind]; eauto.
      * split.
        { intros [d' H].
          destruct field; try discriminate I; cbn [iterate bind] in H;
            discriminate H. }
        { intros H. specialize (H field eq_refl T). congruence. }
    + split; [|eauto]. intros _ f [= <-] T'. congruence.
  - split; [|eauto]. intros _ f H. discriminate H.
Qed.

Lemma default_value_falsy (rt : runtime) (k : pystr) :
  In k item_keys -> truthy rt (default_value k) = false.
Proof.
  unfold item_keys. cbn [In].
  intros [<-|[<-|[<-|[]]]]; reflexivity.
Qed.

Lemma complete_returns (rt : runtime) (d : dict) :
  (exists r, complete rt d = Return r) <->
  (forall k f, In k item_keys -> dict_get k d = Some f ->
               truthy rt f = true -> iterable f = true).
Proof.
  unfold complete. set (d0 := fold_left ensure_key required_keys d).
  assert (Hd0 : forall k, In k item_keys ->
            (forall f, dict_get k d0 = Some f -> truthy rt f = true ->
                       iterable f = true) <->
            (forall f, dict_get k d = Some f -> truthy rt f = true ->
                       iterable f = true)).
  { intros k Hk. unfold d0. rewrite ensure_keys_get.
    destruct (dict_get k d) as [f0|]; [reflexivity|].
    split; [intros _ f H; discriminate H|].
    intros _ f H T.
    destruct (existsb (str_eqb k) required_keys); [|discriminate].
    injection H as <-. rewrite default_value_falsy in T by assumption.
    discriminate. }
  unfold item_keys in *. cbn [fold_left bind].
  pose proof (Hd0 key_decisions (or_introl eq_refl)) as H1.
  pose proof (Hd0 action_items (or_intror (or_introl eq_refl))) as H2.
  pose proof (Hd0 discussion_points
                (or_intror (or_intror (or_introl eq_refl)))) as H3.
  clear Hd0. rewrite <- split_key_returns in H1.
  split.
  - intros [r H].
    destruct (split_key rt d0 key_decisions) as [d1|] eqn:E1;
      cbn [bind] in H; [|discriminate].
    destruct (split_key rt d1 action_items) as [d2|] eqn:E2;
      cbn [bind] in H; [|discriminate].
    intros k f Hk. cbn [In] in Hk. destruct Hk as [<-|[<-|[<-|[]]]].
    + apply H1. eauto.
    + apply H2. rewrite <- (@split_key_other rt d0 d1 key_decisions _ E1)
        by discriminate.
      apply split_key_returns. eauto.
    + apply H3. rewrite <- (@split_key_other rt d0 d1 key_decisions _ E1)
        by discriminate.
      rewrite <- (@split_key_other rt d1 d2 action_items _ E2)
        by discriminate.
      apply split_key_returns. eauto.
  - intros Hall.
    destruct (proj2 H1) as [d1 E1].
    { intros f. apply Hall. cbn [In]. auto. }
    rewrite E1. cbn [bind].
    destruct (proj2 (split_key_returns rt d1 action_items)) as [d2 E2].
    { rewrite (@split_key_other rt d0 d1 key_decisions _ E1) by discriminate.
      apply H2. intros f. apply Hall. cbn [In]. auto. }
    rewrite E2. cbn [bind].
    apply split_key_returns.
    rewrite (@split_key_other rt d1 d2 action_items _ E2) by discriminate.
    rewrite (@split_key_other rt d0 d1 key_decisions _ E1) by discriminate.
    apply H3. intros f. apply Hall. cbn [In]. auto.
Qed.

(** X1.  The normaliser returns a record exactly when three things hold:
    the decoder raises nothing on the span (a [JSONDecodeError] apart,
    which is caught), the two [print] calls raise nothing when the span
    is refused, and no item field of the decoded object is both truthy
    and impossible to iterate.  So it returns on every text without a
    span, and on every decoded object whose item fields are lists,
    strings, objects, falsy values or absent. *)
Theorem normaliser_returns_iff (rt : runtime) (response_text : pystr) :
  (exists r, extract_json_from_response rt response_text = Return r) <->
  (forall span,
      Re.search (cleaned_text response_text) = Some span ->
      (forall e, Json.loads rt span <> Json.Raised e) /\
      (Json.loads rt span = Json.Invalid ->
       report_decode_error rt span = Return tt)) /\
  (forall d k f,
      parsed_object rt response_text = Some d ->
      In k item_keys -> dict_get k d = Some f ->
      truthy rt f = true -> iterable f = true).
Proof.
  unfold extract_json_from_response, parsed_object.
  destruct (Re.search (cleaned_text response_text)) as [span|] eqn:Hs.
  2:{ split; [|eauto]. intros _. split; [intros span H; discriminate H|].
      intros d k f H; discriminate H. }
  destruct (search_head _ Hs) as [t ->].
  pose proof (loads_terminates rt (123 :: t)) as Hterm.
  destruct (Json.loads rt (123 :: t)) as [v| |e|] eqn:Hl; [| | |congruence].
  - destruct (loads_brace_dict _ _ Hl) as [d ->].
    rewrite complete_returns. split.
    + intros H. split.
      * intros span [= <-]. rewrite Hl. split; discriminate.
      * intros d' k f [= <-]. apply H.
    + intros [_ H] k f. now apply H.
  - split.
    + intros [r H]. split.
      * intros span [= <-]. rewrite Hl. split; [discriminate|]. intros _.
        destruct (report_decode_error rt (123 :: t)) as [[]|e];
          [reflexivity|discriminate H].
      * intros d k f H'; discriminate H'.
    + intros [H _]. destruct (H _ eq_refl) as [_ Hr]. rewrite Hl in Hr.
      rewrite (Hr eq_refl). cbn [bind]. eauto.
  - split.
    + intros [r H]; discriminate H.
    + intros [H _]. destruct (H _ eq_refl) as [Hn _]. rewrite Hl in Hn.
      now destruct (Hn e).
Qed.

(** X2.  In a record the normaliser returns, each of the three item
    fields is a list of strings, unless the decoded object gave the field
    a falsy value, which is then returned as it was. *)
Theorem item_fields_are_string_lists (rt : runtime) (response_text : pystr)
  (r : dict) (k : pystr) :
  extract_json_from_response rt response_text = Return r ->
  In k item_keys ->
  exists v, dict_get k r = Some v /\
            ((exists strs, v = VList (List.map VStr strs)) \/
             (truthy rt v = false /\
              exists d, parsed_object rt response_text = Some d /\
                        dict_get k d = Some v)).
Proof.
  intros H Hk.
  destruct (parsed_object rt response_text) as [d|] eqn:Hp.
  - assert (Hret : forall k f, In k item_keys -> dict_get k d = Some f ->
                                truthy rt f = true -> iterable f = true).
    { apply complete_returns. exists r.
      now rewrite <- (@extract_decoded _ _ _ Hp). }
    rewrite (extract_get _ _ k Hp H).
    destruct (dict_get k d) as [field|] eqn:Hf.
    + eexists. split; [reflexivity|]. unfold rewritten.
      rewrite (@in_keys _ _ Hk). cbn [andb].
      destruct (truthy rt field) eqn:T.
      * specialize (Hret k field Hk Hf T).
        destruct field; try discriminate Hret; cbn [iterate]; eauto.
      * right. eauto.
    + assert (Hreq : existsb (str_eqb k) required_keys = true).
      { apply in_keys. unfold item_keys, required_keys in *. cbn [In] in *.
        intuition. }
      rewrite Hreq. eexists. split; [reflexivity|]. left. exists [].
      unfold item_keys in Hk. cbn [In] in Hk.
      destruct Hk as [<-|[<-|[<-|[]]]]; reflexivity.
  - apply (@extract_undecoded _ _ _ Hp) in H. subst r.
    unfold item_keys in Hk. cbn [In] in Hk.
    destruct Hk as [<-|[<-|[<-|[]]]]; eexists; (split; [reflexivity|]);
      left; eexists [_]; reflexivity.
Qed.

Lemma item_fields_are_string_lists_example :
  exists v,
    dict_get key_decisions
      [ (key_decisions, VList [VStr (lit "1"); VStr (lit "a")]);
        (action_items, VInt 0);
        (meeting_summary, VStr (lit "No summary available"));
        (participants, VList []); (discussion_points, VList []) ] = Some v /\
    ((exists strs, v = VList (List.map VStr strs)) \/
     (truthy example_runtime v = false /\
      exists d,
        parsed_object example_runtime (jlit "{'key_decisions': [1, 'a'], 'action_items': 0}")
        = Some d /\ dict_get key_decisions d = Some v)).
Proof.
  apply (@item_fields_are_string_lists example_runtime
           (jlit "{'key_decisions': [1, 'a'], 'action_items': 0}")).
  - vm_compute. reflexivity.
  - vm_compute. auto.
Defined.

(** ** Trimmed items *)

Lemma lstrip_nonspace (s : pystr) (c : char) (t : pystr) :
  lstrip s = c :: t -> isspace c = false.
Proof.
  induction s as [|a s IH]; cbn [lstrip]; [discriminate|].
  destruct (isspace a) eqn:E; [assumption|]. now intros [= <- _].
Qed.

Lemma lstrip_idempotent (s : pystr) : lstrip (lstrip s) = lstrip s.
Proof.
  induction s as [|c t IH]; [reflexivity|]. cbn [lstrip].
  destruct (isspace c) eqn:E; [assumption|]. cbn [lstrip]. now rewrite E.
Qed.

Lemma strip_idempotent (s : pystr) : strip (strip s) = strip s.
Proof.
  unfold strip. destruct (lstrip s) as [|c t] eqn:E; [reflexivity|].
  apply lstrip_nonspace in E.
  pose proof (@rstrip_after [] c t E) as H1. cbn [app] in H1. rewrite H1.
  cbn [lstrip]. rewrite E.
  pose proof (@rstrip_after [] c (rstrip t) E) as H2. cbn [app] in H2.
  rewrite H2. f_equal. unfold rstrip. now rewrite rev_involutive, lstrip_idempotent.
Qed.

Lemma pieces_trimmed (s p : pystr) :
  In p (pieces s) ->
  trimmed p /\ ((2 < count s delimiter)%nat -> p <> []).
Proof.
  unfold pieces, trimmed.
  destruct (2 <? count s delimiter)%nat eqn:C.
  - intros H. apply filter_In in H. destruct H as [H Hne].
    apply in_map_iff in H. destruct H as (x & <- & _).
    split; [apply strip_idempotent|]. intros _ E. rewrite E in Hne.
    discriminate.
  - cbn [In]. intros [<-|[]]. split; [apply strip_idempotent|].
    apply Nat.ltb_ge in C. lia.
Qed.

(** X3.  When an item field of the decoded object is a list of strings,
    the field comes back as a list of strings none of which has white
    space at either end. *)
Theorem string_items_come_back_trimmed (rt : runtime) (response_text : pystr)
  (d r : dict) (k : pystr) (texts : list pystr) :
  parsed_object rt response_text = Some d ->
  extract_json_from_response rt response_text = Return r ->
  In k item_keys ->
  dict_get k d = Some (VList (List.map VStr texts)) ->
  exists out, dict_get k r = Some (VList (List.map VStr out)) /\
              Forall trimmed out.
Proof.
  intros Hp H Hk Hd. rewrite (extract_get _ _ k Hp H), Hd.
  unfold rewritten. rewrite (@in_keys _ _ Hk). cbn [andb].
  exists (deconcatenate rt (List.map VStr texts)). split.
  - destruct texts; reflexivity.
  - unfold deconcatenate. apply Forall_forall. intros p Hin.
    apply in_flat_map in Hin. destruct Hin as (item & Hitem & Hin).
    apply in_map_iff in Hitem. destruct Hitem as (s & <- & _).
    now apply pieces_trimmed in Hin.
Qed.

Lemma string_items_come_back_trimmed_example :
  exists out,
    dict_get action_items
      [ (action_items, VList [VStr (lit "x"); VStr (lit "A - B")]);
        (meeting_summary, VStr (lit "No summary available"));
        (participants, VList []); (key_decisions, VList []);
        (discussion_points, VList []) ]
    = Some (VList (List.map VStr out)) /\ Forall trimmed out.
Proof.
  apply (@string_items_come_back_trimmed example_runtime
           (jlit "{'action_items': ['  x ', 'A - B  ']}")
           [(action_items, VList [VStr (lit "  x "); VStr (lit "A - B  ")])]
           _ action_items [lit "  x "; lit "A - B  "]);
    try (vm_compute; reflexivity).
  vm_compute. auto.
Defined.

(** ** The keys of the record *)

Lemma dict_set_keys_present (k : pystr) (v : value) (d : dict) :
  dict_contains k d = true -> List.map fst (dict_set k v d) = List.map fst d.
Proof.
  unfold dict_contains. induction d as [|[k' v'] d IH]; cbn [dict_get dict_set];
    [discriminate|].
  destruct (str_eqb k k') eqn:E; cbn [List.map fst].
  - apply str_eqb_eq in E. now subst.
  - intros H. now rewrite IH.
Qed.

Lemma dict_set_keys_absent (k : pystr) (v : value) (d : dict) :
  dict_contains k d = false ->
  List.map fst (dict_set k v d) = List.map fst d ++ [k].
Proof.
  unfold dict_contains. induction d as [|[k' v'] d IH]; cbn [dict_get dict_set];
    [reflexivity|].
  destruct (str_eqb k k') eqn:E; [discriminate|].
  intros H. cbn [List.map fst app]. now rewrite IH.
Qed.

Lemma ensure_keys_keys (keys : list pystr) (d : dict) :
  NoDup keys ->
  List.map fst (fold_left ensure_key keys d) =
  List.map fst d ++ filter (fun k => negb (dict_contains k d)) keys.
Proof.
  intros Hnd. revert d. induction Hnd as [|key keys Hnotin Hnd IH]; intros d;
    cbn [fold_left filter].
  - now rewrite app_nil_r.
  - rewrite IH. unfold ensure_key.
    destruct (dict_contains key d) eqn:C; cbn [negb]; [reflexivity|].
    rewrite dict_set_keys_absent by assumption.
    rewrite <- app_assoc. cbn [app]. f_equal. f_equal.
    apply filter_ext_in. intros k Hk. f_equal.
    unfold dict_contains. rewrite dict_get_set_other; [reflexivity|].
    intros ->. contradiction.
Qed.

Lemma split_key_keys (rt : runtime) (d d' : dict) (key : pystr) :
  split_key rt d key = Return d' -> List.map fst d' = List.map fst d.
Proof.
  unfold split_key. destruct (dict_get key d) as [field|] eqn:Hf;
    [|now intros [= <-]].
  destruct (truthy rt field); [|now intros [= <-]].
  destruct (iterate field); cbn [bind]; [|discriminate].
  intros [= <-]. apply dict_set_keys_present.
  apply dict_contains_get. eauto.
Qed.

(** X4.  The normaliser keeps every key of the decoded object, in the
    order the object has them, and adds after them the required keys the
    object lacks, in the order of [required_keys], and no other key. *)
Theorem keys_kept_and_completed (rt : runtime) (response_text : pystr)
  (d r : dict) :
  parsed_object rt response_text = Some d ->
  extract_json_from_response rt response_text = Return r ->
  List.map fst r =
  List.map fst d ++ filter (fun k => negb (dict_contains k d)) required_keys.
Proof.
  intros Hp. rewrite extract_spec, Hp. unfold complete.
  unfold item_keys. cbn [fold_left bind].
  set (d0 := fold_left ensure_key required_keys d).
  destruct (split_key rt d0 key_decisions) as [d1|] eqn:E1;
    cbn [bind]; [|discriminate].
  destruct (split_key rt d1 action_items) as [d2|] eqn:E2;
    cbn [bind]; [|discriminate].
  intros E3.
  rewrite (split_key_keys _ _ _ E3), (split_key_keys _ _ _ E2),
    (split_key_keys _ _ _ E1).
  apply ensure_keys_keys.
  unfold required_keys.
  repeat (constructor; [cbn [In]; intuition discriminate|]). constructor.
Qed.

Lemma keys_kept_and_completed_example :
  List.map fst
    [ (lit "topic", VStr (lit "x")); (participants, VList []);
      (meeting_summary, VStr (lit "No summary available"));
      (key_decisions, VList []); (action_items, VList []);
      (discussion_points, VList []) ]
  = List.map fst [ (lit "topic", VStr (lit "x")); (participants, VList []) ]
    ++ filter (fun k => negb (dict_contains k
                 [ (lit "topic", VStr (lit "x")); (participants, VList []) ]))
         required_keys.
Proof.
  apply (@keys_kept_and_completed example_runtime
           (jlit "{'topic': 'x', 'participants': []}"));
    vm_compute; reflexivity.
Defined.

(** ** Texts that are cleaned to the same text *)

Lemma same_cleaned_text (rt : runtime) (x y : pystr) :
  cleaned_text x = cleaned_text y ->
  parsed_object rt x = parsed_object rt y /\
  (parsed_object rt y <> None ->
   extract_json_from_response rt x = extract_json_from_response rt y).
Proof.
  intros H.
  assert (Hp : parsed_object rt x = parsed_object rt y)
    by (unfold parsed_object; now rewrite H).
  split; [assumption|]. intros Hy. rewrite !extract_spec, Hp.
  destruct (parsed_object rt y); [reflexivity|congruence].
Qed.

Lemma strip_nonspace_ends (c d : char) (mid : pystr) :
  isspace c = false -> isspace d = false ->
  strip (c :: mid ++ [d]) = c :: mid ++ [d].
Proof.
  intros Hc Hd.
  pose proof (@strip_core [] [] mid c d eq_refl eq_refl Hc Hd) as H.
  cbn [app] in H. now rewrite app_nil_r in H.
Qed.

Lemma cleaned_text_object (mid : pystr) :
  cleaned_text (123 :: mid ++ [125]) = 123 :: mid ++ [125].
Proof.
  unfold cleaned_text. rewrite strip_nonspace_ends by reflexivity.
  reflexivity.
Qed.

Lemma remove_code_block_fenced (first body close : pystr) :
  startswith first fence = true -> free_of 10 first ->
  startswith close fence = true -> free_of 10 close ->
  remove_code_block (first ++ 10 :: body ++ 10 :: close) = body.
Proof.
  intros Hf Hfn Hc Hcn.
  rewrite remove_code_block_lines by assumption.
  unfold newline. rewrite !split_last_line by assumption.
  rewrite last_last, Hc, removelast_last. apply join_split_lines.
Qed.

(** X5.  An object between a line that opens a fence, with any language
    tag, and a line that closes it is decoded like the object alone, and
    when the object decodes the two texts give the same outcome. *)
Theorem fenced_object_as_bare (rt : runtime) (tag mid : pystr) :
  free_of 10 tag ->
  parsed_object rt
    (fence ++ tag ++ newline ++ (123 :: mid ++ [125]) ++ newline ++ fence) =
  parsed_object rt (123 :: mid ++ [125])
  /\ (parsed_object rt (123 :: mid ++ [125]) <> None ->
      extract_json_from_response rt
        (fence ++ tag ++ newline ++ (123 :: mid ++ [125]) ++ newline ++ fence) =
      extract_json_from_response rt (123 :: mid ++ [125])).
Proof.
  intros Htag. apply same_cleaned_text.
  rewrite cleaned_text_object. unfold cleaned_text.
  change fence with [96; 96; 96]. unfold newline.
  replace ([96; 96; 96] ++ tag ++ [10] ++ (123 :: mid ++ [125]) ++ [10]
           ++ [96; 96; 96])
    with (96 :: ([96; 96] ++ tag ++ [10] ++ (123 :: mid ++ [125]) ++ [10]
                 ++ [96; 96]) ++ [96])
    by (cbn [app]; repeat (rewrite <- app_assoc; cbn [app]); reflexivity).
  rewrite strip_nonspace_ends by reflexivity.
  replace (96 :: ([96; 96] ++ tag ++ [10] ++ (123 :: mid ++ [125]) ++ [10]
                  ++ [96; 96]) ++ [96])
    with (([96; 96; 96] ++ tag) ++ 10 :: (123 :: mid ++ [125]) ++ 10
          :: [96; 96; 96])
    by (cbn [app]; repeat (rewrite <- app_assoc; cbn [app]); reflexivity).
  apply remove_code_block_fenced; try reflexivity.
  apply free_of_app. split; [reflexivity|assumption].
Qed.

Lemma fenced_object_as_bare_example :
  parsed_object example_runtime
    (fence ++ lit "json" ++ newline
     ++ (123 :: jlit "'participants': ['Ann']" ++ [125]) ++ newline ++ fence) =
  parsed_object example_runtime (123 :: jlit "'participants': ['Ann']" ++ [125])
  /\ (parsed_object example_runtime (123 :: jlit "'participants': ['Ann']" ++ [125]) <> None ->
      extract_json_from_response example_runtime
        (fence ++ lit "json" ++ newline
         ++ (123 :: jlit "'participants': ['Ann']" ++ [125]) ++ newline ++ fence) =
      extract_json_from_response example_runtime
        (123 :: jlit "'participants': ['Ann']" ++ [125])).
Proof.
  apply (@fenced_object_as_bare example_runtime (lit "json")
           (jlit "'participants': ['Ann']")).
  reflexivity.
Defined.

Lemma rstrip_lstrip_blank (s b : pystr) :
  blank b -> rstrip (lstrip (s ++ b)) = rstrip (lstrip s).
Proof.
  intros Hb. induction s as [|c t IH]; cbn [app lstrip].
  - pose proof (@lstrip_blank b [] Hb) as H. rewrite app_nil_r in H.
    now rewrite H.
  - destruct (isspace c); [assumption|].
    change (c :: t ++ b) with ((c :: t) ++ b). now apply rstrip_blank.
Qed.

Lemma strip_between_blanks (a s b : pystr) :
  blank a -> blank b -> strip (a ++ s ++ b) = strip s.
Proof.
  intros Ha Hb. unfold strip. rewrite lstrip_blank by assumption.
  now apply rstrip_lstrip_blank.
Qed.

(** X6.  White space before and after a response does not change what is
    decoded from it, nor the outcome when an object is decoded. *)
Theorem surrounding_space_ignored (rt : runtime) (a s b : pystr) :
  blank a -> blank b ->
  parsed_object rt (a ++ s ++ b) = parsed_object rt s
  /\ (parsed_object rt s <> None ->
      extract_json_from_response rt (a ++ s ++ b) =
      extract_json_from_response rt s).
Proof.
  intros Ha Hb. apply same_cleaned_text.
  unfold cleaned_text. now rewrite strip_between_blanks.
Qed.

Lemma surrounding_space_ignored_example :
  parsed_object example_runtime (lit "  " ++ jlit "x {'a': 1}" ++ [10; 9]) =
  parsed_object example_runtime (jlit "x {'a': 1}")
  /\ (parsed_object example_runtime (jlit "x {'a': 1}") <> None ->
      extract_json_from_response example_runtime
        (lit "  " ++ jlit "x {'a': 1}" ++ [10; 9]) =
      extract_json_from_response example_runtime (jlit "x {'a': 1}")).
Proof.
  apply (@surrounding_space_ignored example_runtime (lit "  ")
           (jlit "x {'a': 1}") [10; 9]); reflexivity.
Defined.

(** ** The fallback record *)

(** X7.  When no object was decoded and the normaliser returns, what it
    returns is the fallback record, in which the raw response is quoted
    up to its 300th character: the one discussion point is 17 characters
    longer than the part quoted, and holds the whole response when the
    response has at most 300 characters. *)
Theorem fallback_excerpt_bounded (rt : runtime) (response_text : pystr)
  (r : dict) :
  parsed_object rt response_text = None ->
  extract_json_from_response rt response_text = Return r ->
  r = fallback response_text /\
  exists excerpt,
    dict_get discussion_points r = Some (VList [VStr excerpt]) /\
    length excerpt = (17 + Nat.min 300 (length response_text))%nat /\
    ((length response_text <= 300)%nat ->
     excerpt = lit "Raw response: " ++ response_text ++ lit "...").
Proof.
  intros Hp H. apply (@extract_undecoded _ _ _ Hp) in H. subst r.
  split; [reflexivity|].
  exists (lit "Raw response: " ++ prefix 300 response_text ++ lit "...").
  split; [reflexivity|]. unfold prefix. split.
  - rewrite !length_app, length_firstn.
    change (length (lit "Raw response: ")) with 14%nat.
    change (length (lit "...")) with 3%nat. lia.
  - intros Hl. now rewrite firstn_all2.
Qed.

Lemma fallback_excerpt_bounded_example :
  fallback (jlit "{'participants': [}") = fallback (jlit "{'participants': [}") /\
  exists excerpt,
    dict_get discussion_points (fallback (jlit "{'participants': [}"))
    = Some (VList [VStr excerpt]) /\
    length excerpt
    = (17 + Nat.min 300 (length (jlit "{'participants': [}")))%nat /\
    ((length (jlit "{'participants': [}") <= 300)%nat ->
     excerpt = lit "Raw response: " ++ jlit "{'participants': [}" ++ lit "...").
Proof.
  apply (@fallback_excerpt_bounded example_runtime
           (jlit "{'participants': [}")
           (fallback (jlit "{'participants': [}")));
    vm_compute; reflexivity.
Defined.



(** ** Responses without a brace *)

Lemma split_lines_free (c : char) (s : pystr) :
  free_of c s -> Forall (free_of c) (split s [10]).
Proof.
  unfold free_of. induction s as [|a t IH]; cbn [existsb].
  - intros _. repeat constructor.
  - intros H. apply orb_false_iff in H. destruct H as [Ha Ht].
    rewrite split_lines_cons. specialize (IH Ht).
    destruct (a =? 10); [constructor; [reflexivity|assumption]|].
    destruct (split t [10]) as [|piece rest].
    + repeat constructor. cbn [existsb]. now rewrite Ha.
    + inversion IH; subst. constructor; [|assumption].
      cbn [existsb]. rewrite Ha. assumption.
Qed.

Lemma join_lines_free (c : char) (lines : list pystr) :
  c <> 10 -> Forall (free_of c) lines -> free_of c (join [10] lines).
Proof.
  intros Hc. induction 1 as [|l lines Hl Hall IH]; [reflexivity|].
  destruct lines as [|l' lines]; [exact Hl|].
  change (join [10] (l :: l' :: lines))
    with (l ++ [10] ++ join [10] (l' :: lines)).
  apply free_of_app. split; [assumption|].
  apply free_of_app. split; [|assumption].
  unfold free_of. cbn [existsb]. rewrite orb_false_r. now apply N.eqb_neq.
Qed.

Lemma Forall_removelast {A} (P : A -> Prop) (l : list A) :
  Forall P l -> Forall P (removelast l).
Proof.
  induction 1 as [|a l Ha Hl IH]; [constructor|].
  cbn [removelast]. destruct l; [constructor|]. now constructor.
Qed.

Lemma remove_code_block_free (c : char) (t : pystr) :
  c <> 10 -> free_of c t -> free_of c (remove_code_block t).
Proof.
  intros Hc Ht. unfold remove_code_block.
  destruct (startswith t fence); [|assumption].
  pose proof (@split_lines_free c t Ht) as Hall. unfold newline.
  assert (Htl : Forall (free_of c)
            (if startswith (hd [] (split t [10])) fence
             then tl (split t [10]) else split t [10])).
  { destruct (startswith (hd [] (split t [10])) fence); [|assumption].
    destruct (split t [10]); [constructor|]. now inversion Hall. }
  apply join_lines_free; [assumption|].
  destruct (if startswith (hd [] (split t [10])) fence
            then tl (split t [10]) else split t [10]) as [|l ls] eqn:E;
    [constructor|].
  destruct (startswith (last (l :: ls) []) fence); [|assumption].
  now apply Forall_removelast.
Qed.

Lemma search_without_close (s : pystr) : free_of 125 s -> Re.search s = None.
Proof.
  unfold free_of. induction s as [|c t IH]; cbn [existsb Re.search];
    [reflexivity|].
  intros H. apply orb_false_iff in H. destruct H as [_ Ht].
  rewrite (@upto_last_brace_none t Ht).
  destruct (c =? 123); now apply IH.
Qed.

(** X8.  A response without an opening brace, or without a closing brace,
    always gets the fallback record. *)
Theorem no_brace_no_object (rt : runtime) (response_text : pystr) :
  free_of 123 response_text \/ free_of 125 response_text ->
  extract_json_from_response rt response_text = Return (fallback response_text).
Proof.
  intros H.
  assert (Hs : Re.search (cleaned_text response_text) = None).
  { unfold cleaned_text, strip. destruct H as [H|H].
    - apply search_none, remove_code_block_free; [discriminate|].
      now apply free_of_rstrip, free_of_lstrip.
    - apply search_without_close, remove_code_block_free; [discriminate|].
      now apply free_of_rstrip, free_of_lstrip. }
  unfold extract_json_from_response. now rewrite Hs.
Qed.

Lemma no_brace_no_object_example :
  extract_json_from_response example_runtime (jlit "{'participants': [") =
  Return (fallback (jlit "{'participants': [")).
Proof.
  apply (@no_brace_no_object example_runtime (jlit "{'participants': [")).
  right. reflexivity.
Defined.

(* ================================================================== *)
(** * Further properties of the handler of [/api/analyze] *)
(* ================================================================== *)

Lemma lstrip_nil_blank (s : pystr) : lstrip s = [] -> blank s.
Proof.
  unfold blank. induction s as [|c t IH]; [reflexivity|].
  cbn [lstrip forallb]. destruct (isspace c); [assumption|discriminate].
Qed.

Lemma strip_nil_blank (s : pystr) : strip s = [] <-> blank s.
Proof.
  split; [|apply strip_blank].
  unfold strip, rstrip. intros H.
  apply (f_equal (@rev N)) in H. rewrite rev_involutive in H. cbn [rev] in H.
  apply lstrip_nil_blank in H. unfold blank in H. rewrite forallb_rev in H.
  destruct (lstrip s) as [|c t] eqn:E; [now apply lstrip_nil_blank|].
  apply lstrip_nonspace in E. cbn [forallb] in H. rewrite E in H.
  discriminate.
Qed.

Lemma nonempty_false (s : pystr) : nonempty s = false <-> s = [].
Proof. destruct s; split; intros H; reflexivity || discriminate. Qed.

(** X9.  The handler sends at most one prompt to the model, and only for
    a transcript that is a string with something else than white space;
    the prompt is built from the transcript as it was received. *)
Theorem model_called_at_most_once (rt : runtime)
  (chat : pystr -> chat_result) (data : value) :
  fst (analyze_meeting rt chat data) = [] \/
  exists d text,
    data = VDict d /\
    dict_get (lit "transcript") d = Some (VStr text) /\
    ~ blank text /\
    fst (analyze_meeting rt chat data) = [create_analysis_prompt text].
Proof.
  unfold analyze_meeting, analyze_meeting_try.
  destruct data as [| | | | |items|d]; try (left; reflexivity).
  destruct (dict_get (lit "transcript") d) as [v|] eqn:Hd;
    [|left; reflexivity].
  destruct v as [| | | |text| |]; try (left; reflexivity).
  destruct (nonempty (strip text)) eqn:Hn; cbn [negb]; [|left; reflexivity].
  right. exists d, text. repeat split; try assumption.
  - intros Hb. apply strip_nil_blank in Hb. rewrite Hb in Hn. discriminate.
  - destruct (chat (create_analysis_prompt text)); reflexivity.
Qed.

(** X10.  The handler answers 400 exactly when the body is an object
    whose transcript is absent or is a string that is empty or white
    space only. *)
Theorem status_400_iff (rt : runtime) (chat : pystr -> chat_result)
  (data : value) :
  status (snd (analyze_meeting rt chat data)) = 400 <->
  exists d,
    data = VDict d /\
    (dict_get (lit "transcript") d = None \/
     exists text, dict_get (lit "transcript") d = Some (VStr text) /\ blank text).
Proof.
  unfold analyze_meeting, analyze_meeting_try.
  destruct data as [| | | | |items|d];
    try (split; [intros H; cbn in H; discriminate H
                |intros (d & H & _); discriminate H]).
  destruct (dict_get (lit "transcript") d) as [v|] eqn:Hd.
  - destruct v as [| | | |text| |];
      try (split; [intros H; cbn in H; discriminate H
                  |intros (d' & E & [H|(t & H & _)]); congruence]).
    destruct (nonempty (strip text)) eqn:Hn; cbn [negb].
    + split.
      * destruct (chat (create_analysis_prompt text)) as [reply|e].
        { destruct (extract_json_from_response rt reply) as [analysis|e];
            cbn [bind snd status];
            [intros H; discriminate H
            |destruct e; intros H; cbn in H; discriminate H]. }
        { destruct e; intros H; cbn in H; discriminate H. }
      * intros (d' & E & [H|(t & H & Hb)]); [congruence|].
        assert (t = text) as -> by congruence.
        apply strip_nil_blank in Hb. rewrite Hb in Hn. discriminate.
    + split; [intros _|reflexivity].
      exists d. split; [reflexivity|]. right. exists text.
      split; [assumption|]. apply strip_nil_blank. now apply nonempty_false.
  - split; [intros _|reflexivity].
    exists d. split; [reflexivity|]. now left.
Qed.

(** X11.  A body that is not an object, and a transcript that is not a
    string ([null], a number, a list), are answered 500 without any call
    to the model. *)
Theorem unusable_request_is_500 (rt : runtime) (chat : pystr -> chat_result)
  (data : value) :
  (forall d, data <> VDict d) \/
  (exists d v, data = VDict d /\ dict_get (lit "transcript") d = Some v /\
               forall text, v <> VStr text) ->
  fst (analyze_meeting rt chat data) = [] /\
  status (snd (analyze_meeting rt chat data)) = 500.
Proof.
  unfold analyze_meeting, analyze_meeting_try.
  intros [H|(d & v & -> & Hd & Hv)].
  - destruct data; try (split; reflexivity). now destruct (H entries).
  - rewrite Hd. destruct v; try (split; reflexivity). now destruct (Hv s).
Qed.

Lemma unusable_request_is_500_example :
  fst (analyze_meeting example_runtime (fun _ => ChatReply [])
         (VDict [(lit "transcript", VNone)])) = [] /\
  status (snd (analyze_meeting example_runtime (fun _ => ChatReply [])
                 (VDict [(lit "transcript", VNone)]))) = 500.
Proof.
  apply (@unusable_request_is_500 example_runtime).
  right. exists [(lit "transcript", VNone)], VNone.
  repeat split. discriminate.
Defined.

(** X12.  When the model's reply holds no object that decodes, the
    handler answers 200 exactly when the normaliser returns: the analysis
    is then the fallback record and the reply comes back as
    [raw_response].  When the normaliser raises instead, the decoder or
    a [print] call having raised, the answer is a 500. *)
Theorem undecodable_reply_answer (rt : runtime) (chat : pystr -> chat_result)
  (d : dict) (text reply : pystr) :
  dict_get (lit "transcript") d = Some (VStr text) ->
  ~ blank text ->
  chat (create_analysis_prompt text) = ChatReply reply ->
  parsed_object rt reply = None ->
  (forall r,
      extract_json_from_response rt reply = Return r ->
      analyze_meeting rt chat (VDict d) =
      ([create_analysis_prompt text],
       {| status := 200;
          body := [ (lit "success", VBool true);
                    (lit "analysis", VDict (fallback reply));
                    (lit "model_used", VStr (lit "llama3.2"));
                    (lit "raw_response", VStr reply) ] |}))
  /\ (forall e,
         extract_json_from_response rt reply = Raise e ->
         fst (analyze_meeting rt chat (VDict d)) = [create_analysis_prompt text]
         /\ status (snd (analyze_meeting rt chat (VDict d))) = 500).
Proof.
  intros Hd Hb Hc Hp. unfold analyze_meeting, analyze_meeting_try.
  rewrite Hd.
  destruct (nonempty (strip text)) eqn:Hn.
  2:{ apply nonempty_false, strip_nil_blank in Hn. contradiction. }
  cbn [negb]. rewrite Hc. split.
  - intros r H. rewrite (@extract_undecoded _ _ _ Hp H) in H.
    rewrite H. reflexivity.
  - intros e H. rewrite H. cbn [bind fst snd].
    split; [reflexivity|]. destruct e; reflexivity.
Qed.

Lemma undecodable_reply_answer_example :
  (forall r,
      extract_json_from_response example_runtime (jlit "{'summary': }") = Return r ->
      analyze_meeting example_runtime (fun _ => ChatReply (jlit "{'summary': }"))
        (VDict [(lit "transcript", VStr (lit "We met."))]) =
      ([create_analysis_prompt (lit "We met.")],
       {| status := 200;
          body := [ (lit "success", VBool true);
                    (lit "analysis", VDict (fallback (jlit "{'summary': }")));
                    (lit "model_used", VStr (lit "llama3.2"));
                    (lit "raw_response", VStr (jlit "{'summary': }")) ] |}))
  /\ (forall e,
         extract_json_from_response example_runtime (jlit "{'summary': }") = Raise e ->
         fst (analyze_meeting example_runtime
                (fun _ => ChatReply (jlit "{'summary': }"))
                (VDict [(lit "transcript", VStr (lit "We met."))]))
         = [create_analysis_prompt (lit "We met.")]
         /\ status (snd (analyze_meeting example_runtime
                           (fun _ => ChatReply (jlit "{'summary': }"))
                           (VDict [(lit "transcript", VStr (lit "We met."))])))
            = 500).
Proof.
  apply (@undecodable_reply_answer example_runtime
           (fun _ => ChatReply (jlit "{'summary': }"))
           [(lit "transcript", VStr (lit "We met."))] (lit "We met.")
           (jlit "{'summary': }")); try reflexivity.
  unfold blank. vm_compute. discriminate.
Defined.

Lemma analyze_meeting_try_returns (rt : runtime)
  (chat : pystr -> chat_result) (data : value) (r : response) :
  snd (analyze_meeting_try rt chat data) = Return r ->
  (status r = 200 /\
   List.map fst (body r) =
   [lit "success"; lit "analysis"; lit "model_used"; lit "raw_response"])
  \/ (status r = 400 /\ List.map fst (body r) = [lit "error"]).
Proof.
  unfold analyze_meeting_try.
  destruct data as [| | | | |items|d]; try discriminate.
  assert (Hstr : forall text,
    snd (if negb (nonempty (strip text))
         then ([], Return {| status := 400;
                             body := [(lit "error",
                                       VStr (lit "Empty transcript"))] |})
         else
           let prompt := create_analysis_prompt text in
           match chat prompt with
           | ChatReply response_text =>
               ([prompt],
                bind (extract_json_from_response rt response_text)
                  (fun analysis =>
                     Return {| status := 200;
                               body := [ (lit "success", VBool true);
                                         (lit "analysis", VDict analysis);
                                         (lit "model_used", VStr OLLAMA_MODEL);
                                         (lit "raw_response",
                                           VStr response_text) ] |}))
           | ChatRaises e => ([prompt], Raise e)
           end) = Return r ->
    (status r = 200 /\
     List.map fst (body r) =
     [lit "success"; lit "analysis"; lit "model_used"; lit "raw_response"])
    \/ (status r = 400 /\ List.map fst (body r) = [lit "error"])).
  { intros text. destruct (negb (nonempty (strip text))).
    - intros [= <-]. right. split; reflexivity.
    - cbv zeta.
      destruct (chat (create_analysis_prompt text)) as [reply|e];
        [|discriminate].
      cbn [snd].
      destruct (extract_json_from_response rt reply) as [analysis|e];
        [|discriminate].
      intros [= <-]. left. split; reflexivity. }
  cbv zeta.
  destruct (dict_get (lit "transcript") d) as [v|]; [|apply Hstr].
  destruct v; try discriminate. apply Hstr.
Qed.

(** X13.  The answer follows what the body of the handler did.  A 200 has
    the keys [success], [analysis], [model_used], [raw_response]; a 400
    has the key [error] alone; any other answer is a 500 made from the
    exception the body raised: for a [ConnectionError], and only then,
    the fixed error text, the advice to run [ollama serve] and the text
    of the exception as [details]; for any other exception the text of
    the exception after [Error: ] and the advice to pull the model,
    without [details]. *)
Theorem answer_shape (rt : runtime) (chat : pystr -> chat_result)
  (data : value) :
  let answer := snd (analyze_meeting rt chat data) in
  (status answer = 200 /\
   List.map fst (body answer) =
   [lit "success"; lit "analysis"; lit "model_used"; lit "raw_response"])
  \/ (status answer = 400 /\ List.map fst (body answer) = [lit "error"])
  \/ (status answer = 500 /\
      exists e,
        snd (analyze_meeting_try rt chat data) = Raise e /\
        ((exists msg,
             e = ConnectionError msg /\
             body answer =
             [ (lit "error", VStr (lit "Cannot connect to Ollama"));
               (lit "suggestion",
                 VStr (lit "Make sure Ollama is running: ollama serve"));
               (lit "details", VStr msg) ])
         \/ ((forall msg, e <> ConnectionError msg) /\
             body answer =
             [ (lit "error", VStr (lit "Error: " ++ exn_str e));
               (lit "suggestion",
                 VStr (lit "Make sure model is available: ollama pull llama3.2")) ]))).
Proof.
  cbv zeta. unfold analyze_meeting.
  pose proof (@analyze_meeting_try_returns rt chat data) as Hret.
  destruct (analyze_meeting_try rt chat data) as [prompts [r|e]].
  - cbn [snd] in *. destruct (Hret r eq_refl) as [H|H]; auto.
  - cbn [snd]. right. right.
    destruct e; (split; [reflexivity|]); eexists; (split; [reflexivity|]);
      try (right; split; [intros msg'; discriminate|reflexivity]).
    left. eexists. split; reflexivity.
Qed.

(* ================================================================== *)
(** * Further properties of the prompt *)
(* ================================================================== *)

(** X14.  The prompt holds the transcript as it is, and the prompts of two
    different transcripts are different: nothing of the transcript is
    dropped, escaped or cut when the prompt is built. *)
Theorem prompt_embeds_transcript (transcript other : pystr)
  (H : transcript <> other) :
  contains transcript (create_analysis_prompt transcript) = true /\
  create_analysis_prompt transcript <> create_analysis_prompt other.
Proof.
  split.
  - unfold create_analysis_prompt. apply contains_segment.
  - intros E. apply H. unfold create_analysis_prompt in E.
    apply app_inv_head in E. now apply app_inv_tail in E.
Qed.

Lemma prompt_embeds_transcript_example :
  lit "We met." <> lit "We spoke." /\
  contains (lit "We met.") (create_analysis_prompt (lit "We met.")) = true /\
  create_analysis_prompt (lit "We met.")
  <> create_analysis_prompt (lit "We spoke.").
Proof.
  assert (H : lit "We met." <> lit "We spoke.") by (vm_compute; discriminate).
  split; [exact H | exact (@prompt_embeds_transcript _ _ H)].
Defined.

(* ================================================================== *)
(** * Further properties of the endpoints that list the models *)
(* ================================================================== *)

Lemma collect_name_entry_names (rt : runtime) (acc : list value)
  (model : value) :
  collect_name rt acc model = acc ++ entry_names rt model.
Proof.
  destruct model as [| | | | | |m]; cbn [collect_name entry_names];
    try (now rewrite app_nil_r); try reflexivity.
  cbv zeta. unfold py_or. cbn [find].
  destruct (truthy rt (get_or_none (lit "name") m)) eqn:Hn.
  - rewrite Hn, Hn. reflexivity.
  - destruct (truthy rt (get_or_none (lit "model") m)) eqn:Hm.
    + rewrite Hm. reflexivity.
    + destruct (truthy rt (get_or_none (lit "id") m)) eqn:Hi.
      * reflexivity.
      * now rewrite app_nil_r.
Qed.

Lemma collect_names_flat_map (rt : runtime) (models acc : list value) :
  fold_left (collect_name rt) models acc
  = acc ++ flat_map (entry_names rt) models.
Proof.
  revert acc. induction models as [|model models IH]; intros acc.
  - cbn. now rewrite app_nil_r.
  - cbn [fold_left flat_map]. rewrite IH, collect_name_entry_names.
    now rewrite <- app_assoc.
Qed.

Lemma entry_names_short (rt : runtime) (model : value) :
  (length (entry_names rt model) <= 1)%nat.
Proof.
  destruct model as [| | | | | |m]; cbn [entry_names length]; try lia.
  destruct (find _ _); cbn [length]; lia.
Qed.

Lemma entry_names_kind (rt : runtime) (model name : value) :
  In name (entry_names rt model) ->
  name = model /\ (exists s, model = VStr s)
  \/ truthy rt name = true /\
     exists m, model = VDict m /\
       (name = get_or_none (lit "name") m \/
        name = get_or_none (lit "model") m \/
        name = get_or_none (lit "id") m).
Proof.
  destruct model as [| | | |s| |m]; cbn [entry_names In]; try tauto.
  - intros [<-|[]]. left. split; [reflexivity|now exists s].
  - destruct (find _ _) as [found|] eqn:F; cbn [In]; [|tauto].
    intros [<-|[]]. right.
    destruct (find_some _ _ F) as [Hin Ht]. split; [exact Ht|].
    exists m. split; [reflexivity|].
    cbn [In] in Hin. destruct Hin as [<-|[<-|[<-|[]]]]; auto.
Qed.

Lemma model_names_returns (rt : runtime) (models_response : value) :
  (exists names, model_names rt models_response = Return names)
  <-> iterable (models_list models_response) = true.
Proof.
  unfold model_names.
  destruct (models_list models_response);
    cbn [iterate bind iterable]; split;
    try reflexivity; try discriminate;
    try (intros [found E]; discriminate);
    intros _; eexists; reflexivity.
Qed.

(** X15.  The names both endpoints report are, in the order of the listed
    entries, each string entry as it is (an empty one too) and, for each
    dict entry, the first truthy value among its [name], [model] and [id];
    an entry of another type and a dict without such a value give no name,
    so there are never more names than entries. *)
Theorem names_follow_entries (rt : runtime) (models_response : value)
  (names : list value)
  (H : model_names rt models_response = Return names) :
  exists models,
    iterate (models_list models_response) = Return models /\
    names = flat_map (entry_names rt) models /\
    (length names <= length models)%nat /\
    (forall name, In name names ->
       (exists s, name = VStr s /\ In name models)
       \/ truthy rt name = true /\
          exists m, In (VDict m) models /\
            (name = get_or_none (lit "name") m \/
             name = get_or_none (lit "model") m \/
             name = get_or_none (lit "id") m)).
Proof.
  unfold model_names in H.
  destruct (iterate (models_list models_response)) as [models|e];
    cbn [bind] in H; [|discriminate].
  injection H as <-. exists models. split; [reflexivity|].
  rewrite collect_names_flat_map. cbn [app]. split; [reflexivity|]. split.
  - clear. induction models as [|model models IH]; cbn [flat_map length].
    + lia.
    + rewrite length_app. pose proof (entry_names_short rt model). lia.
  - intros name Hin. apply in_flat_map in Hin.
    destruct Hin as [model [Hmodel Hname]].
    destruct (entry_names_kind _ _ _ Hname) as [[-> [s ->]]|[Ht [m [-> Hm]]]].
    + left. exists s. split; [reflexivity|assumption].
    + right. split; [assumption|]. exists m. split; assumption.
Qed.

Lemma names_follow_entries_example :
  let reply :=
    VDict [(lit "models",
             VList [ VDict [(lit "name", VStr []); (lit "model", VStr (lit "llama3"))];
                     VInt 7;
                     VStr (lit "phi3");
                     VDict [(lit "size", VInt 4)] ])] in
  model_names example_runtime reply
  = Return [VStr (lit "llama3"); VStr (lit "phi3")] /\
  exists models,
    iterate (models_list reply) = Return models /\
    [VStr (lit "llama3"); VStr (lit "phi3")]
    = flat_map (entry_names example_runtime) models /\
    (length [VStr (lit "llama3"); VStr (lit "phi3")] <= length models)%nat /\
    (forall name, In name [VStr (lit "llama3"); VStr (lit "phi3")] ->
       (exists s, name = VStr s /\ In name models)
       \/ truthy example_runtime name = true /\
          exists m, In (VDict m) models /\
            (name = get_or_none (lit "name") m \/
             name = get_or_none (lit "model") m \/
             name = get_or_none (lit "id") m)).
Proof.
  cbv zeta.
  assert (H : model_names example_runtime
                (VDict [(lit "models",
                  VList [ VDict [(lit "name", VStr []);
                                 (lit "model", VStr (lit "llama3"))];
                          VInt 7;
                          VStr (lit "phi3");
                          VDict [(lit "size", VInt 4)] ])])
              = Return [VStr (lit "llama3"); VStr (lit "phi3")])
    by (vm_compute; reflexivity).
  split; [exact H | exact (@names_follow_entries _ _ _ H)].
Defined.

(** X16.  [/api/health] answers 200 exactly when [ollama.list] returned
    and what the loop runs over can be iterated (a reply that is no dict,
    or a dict without [models], counts as an empty list); every other
    case, a raised exception or a [models] that is a number, a boolean or
    [None], is answered 500 with [ollama_running] false. *)
Theorem health_status (rt : runtime) (reply : list_result) :
  (status (health_check rt reply) = 200 <->
   exists models_response,
     reply = ListReply models_response /\
     iterable (models_list models_response) = true)
  /\ (status (health_check rt reply) = 200 /\
      dict_get (lit "ollama_running") (body (health_check rt reply))
      = Some (VBool true)
      \/ status (health_check rt reply) = 500 /\
         dict_get (lit "ollama_running") (body (health_check rt reply))
         = Some (VBool false)).
Proof.
  unfold health_check.
  destruct reply as [models_response|e]; cbn [list_models_try].
  - destruct (model_names rt models_response) as [names|e] eqn:E.
    + split.
      * split; [intros _|reflexivity]. exists models_response.
        split; [reflexivity|].
        apply (proj1 (model_names_returns rt models_response)).
        now exists names.
      * left. split; reflexivity.
    + split.
      * split.
        { intros H. destruct e; cbn in H; discriminate. }
        { intros [v [Hv Hi]]. injection Hv as <-.
          apply (proj2 (model_names_returns rt models_response)) in Hi.
          destruct Hi as [names Hn].
          congruence. }
      * right. destruct e; split; reflexivity.
  - split.
    + split.
      * intros H. destruct e; cbn in H; discriminate.
      * intros [v [Hv _]]. discriminate.
    + right. destruct e; split; reflexivity.
Qed.

(** X17.  In a 200 answer of [/api/health], [models_count] is the length
    of [available_models], and [available_models] holds the names
    [/api/models] reports for the same reply of [ollama.list]. *)
Theorem health_count_matches (rt : runtime) (reply : list_result)
  (H : status (health_check rt reply) = 200) :
  exists names,
    dict_get (lit "available_models") (body (health_check rt reply))
    = Some (VList names) /\
    dict_get (lit "models_count") (body (health_check rt reply))
    = Some (VInt (Z.of_nat (length names))) /\
    list_models rt reply
    = {| status := 200; body := [(lit "models", VList names)] |}.
Proof.
  unfold health_check, list_models in *.
  destruct (list_models_try rt reply) as [names|e].
  - exists names. repeat split; reflexivity.
  - destruct e; cbn in H; discriminate.
Qed.

Lemma health_count_matches_example :
  let reply := ListReply (VDict [(lit "models", VList [VStr (lit "phi3")])]) in
  status (health_check example_runtime reply) = 200 /\
  exists names,
    dict_get (lit "available_models")
      (body (health_check example_runtime reply)) = Some (VList names) /\
    dict_get (lit "models_count")
      (body (health_check example_runtime reply))
    = Some (VInt (Z.of_nat (length names))) /\
    list_models example_runtime reply
    = {| status := 200; body := [(lit "models", VList names)] |}.
Proof.
  cbv zeta.
  assert (H : status (health_check example_runtime
                (ListReply (VDict [(lit "models", VList [VStr (lit "phi3")])])))
              = 200) by (vm_compute; reflexivity).
  split; [exact H | exact (@health_count_matches _ _ H)].
Defined.

(** X18.  [/api/models] always answers with a [models] list: with status
    200 and no [error], or with status 500, an empty list and the text of
    the exception as [error]; and its status is the status of
    [/api/health] for the same reply of [ollama.list]. *)
Theorem list_models_answer (rt : runtime) (reply : list_result) :
  status (list_models rt reply) = status (health_check rt reply) /\
  exists names,
    dict_get (lit "models") (body (list_models rt reply))
    = Some (VList names) /\
    (status (list_models rt reply) = 200 /\
     dict_get (lit "error") (body (list_models rt reply)) = None
     \/ status (list_models rt reply) = 500 /\ names = [] /\
        exists e,
          list_models_try rt reply = Raise e /\
          dict_get (lit "error") (body (list_models rt reply))
          = Some (VStr (exn_str e))).
Proof.
  unfold list_models, health_check.
  destruct (list_models_try rt reply) as [names|e].
  - split; [reflexivity|]. exists names. split; [reflexivity|].
    left. split; reflexivity.
  - split; [destruct e; reflexivity|]. exists []. split; [reflexivity|].
    right. split; [reflexivity|]. split; [reflexivity|].
    exists e. split; reflexivity.
Qed.
